(** * notion-scholar: the command dispatcher of [notion_scholar/main.py]

    A shallow embedding of [main.py] (parser construction, parameter
    resolution for [run] and [download], dispatch) over an explicit model of
    the outside world: the keyring, the configuration file, the remote
    database and the file system.  Python values are kept dynamically typed,
    as the code compares and tests them ([is None], [==]) without regard to
    their static type. *)

From Stdlib Require Import String Ascii List Bool.
From stdpp Require Import base option list strings gmap.

Local Open Scope string_scope.
Local Open Scope list_scope.

(** ** Python values *)

Module Py.

(** The values that flow through the dispatcher: [None], booleans and
    strings. *)
Inductive value : Type :=
| VNone
| VBool (b : bool)
| VStr (s : string).

#[global] Instance value_eq_dec : EqDecision value.
Proof. solve_decision. Defined.

(** [x is None] *)
Definition is_None (v : value) : bool :=
  match v with VNone => true | _ => false end.

(** [x == y]: values of different types are never equal; in particular
    [True == 'True'] is [False]. *)
Definition py_eq (x y : value) : bool :=
  match x, y with
  | VNone, VNone => true
  | VBool a, VBool b => Bool.eqb a b
  | VStr a, VStr b => String.eqb a b
  | _, _ => false
  end.

(** [d.get(key, default)] *)
Definition dict_get (d : gmap string value) (key : string) (default : value) : value :=
  match d !! key with
  | Some v => v
  | None => default
  end.

(** The line feed character and the separator ['\n\n']. *)
Definition LF : string := String (ascii_of_nat 10) EmptyString.
Definition LFLF : string := LF +:+ LF.

(** [sep.join(l)] *)
Fixpoint join (sep : string) (l : list string) : string :=
  match l with
  | [] => ""
  | x :: rest =>
      match rest with
      | [] => x
      | _ :: _ => x +:+ sep +:+ join sep rest
      end
  end.

(** [needle in hay] on strings. *)
Fixpoint contains (needle hay : string) : bool :=
  String.prefix needle hay
  || match hay with
     | EmptyString => false
     | String _ hay' => contains needle hay'
     end.

End Py.
Import Py.

(** ** The outside world and the effects of the dispatcher *)

(** Keyword arguments of [notion_scholar.run.run]. *)
Record RunArgs : Type := {
  run_token : value;
  run_database_id : value;
  run_bib_string : value;
  run_bib_file_path : value;
  run_save_to_bib_file : value;
}.

Inductive exn : Type :=
| ConfigError (msg : string)
| UsageError (msg : string)          (* argparse's [parser.error]: usage text, exit status 2 *)
| AssertionError                     (* raised by argparse's usage formatter *)
| HelpRequested                      (* argparse's help action: [print_help()], then exit
                                        status 0; the help text itself is not modelled *)
| SystemExit (code : nat)
| NotImplementedError
| TypeError (msg : string)
| RemoteError (msg : string).        (* raised by the remote database client *)

(** What the process does to its environment, in order. *)
Inductive event : Type :=
| EGetToken
| EGetConfig
| EFetch (token database_id : value)          (* the network call of [download] *)
| EPrint (l : list string)
| EPrintHelp
| EWrite (content file_path : string)
| ERun (args : RunArgs)                       (* entry into [notion_scholar.run.run] *)
| ESetup (kwargs : gmap string value)
| EInspect
| EClear.

Record World : Type := {
  keyring : option string;                           (* the stored token *)
  config_file : gmap string value;                   (* the stored configuration *)
  notion : value -> value -> exn + list string;      (* rows of a database, as bibtex strings *)
  files : gmap string string;                        (* path -> content *)
  columns : nat;                                     (* width of the terminal *)
}.

Record State : Type := {
  world : World;
  trace : list event;
}.

(** State and exception monad. *)
Definition M (A : Type) : Type := State -> State * (exn + A).

#[global] Instance M_ret : MRet M := fun A a st => (st, inr a).
#[global] Instance M_bind : MBind M := fun A B f m st =>
  match m st with
  | (st', inl e) => (st', inl e)
  | (st', inr a) => f a st'
  end.

Definition raise {A : Type} (e : exn) : M A := fun st => (st, inl e).

Definition log (e : event) : M unit := fun st =>
  ({| world := world st; trace := trace st ++ [e] |}, inr tt).

(** The state [st] after the events [evs], the world untouched. *)
Definition after (st : State) (evs : list event) : State :=
  {| world := world st; trace := trace st ++ evs |}.

Definition ask_world : M World := fun st => (st, inr (world st)).

Definition lift_result {A : Type} (r : exn + A) : M A := fun st => (st, r).

(** Modelled from the spec: [notion_scholar.config.get_token] is not in the
    source tree; it "returns None rather than raising when no token is
    stored". *)
Definition stored_token (w : World) : value :=
  match keyring w with
  | Some t => VStr t
  | None => VNone
  end.

Definition get_token : M value :=
  log EGetToken ;;
  w ← ask_world ;
  mret (stored_token w).

(** Modelled from the spec: [notion_scholar.config.get_config] is not in the
    source tree; it returns the persisted mapping of settings. *)
Definition get_config : M (gmap string value) :=
  log EGetConfig ;;
  w ← ask_world ;
  mret (config_file w).

(** Modelled from the spec:
    [notion_scholar.notion_api.get_bibtex_string_list_from_database] is not
    in the source tree; it reads the rows of the remote database as an
    ordered sequence of bibtex strings, or fails; it has no local effect. *)
Definition get_bibtex_string_list_from_database (token database_id : value) : M (list string) :=
  log (EFetch token database_id) ;;
  w ← ask_world ;
  lift_result (notion w token database_id).

(** [print(l)] *)
Definition print (l : list string) : M unit := log (EPrint l).

(** Modelled from the spec: [notion_scholar.utilities.write_to_file] is not
    in the source tree; the file at [file_path] is created or replaced, with
    [content] as its text. *)
Definition write_to_file (content file_path : string) : M unit := fun st =>
  ({| world := {| keyring := keyring (world st);
                  config_file := config_file (world st);
                  notion := notion (world st);
                  files := <[file_path := content]> (files (world st));
                  columns := columns (world st) |};
      trace := trace st ++ [EWrite content file_path] |}, inr tt).

(** ** The part of [argparse] the dispatcher relies on

    The command line is taken after [argparse] has split it: the
    subcommand, followed by the options the user supplied, each with its
    value, in order.  An option is named by the option string [argparse]
    resolves it to, so that an abbreviation such as [--file] or a spelling
    such as [--file-path=x] counts as [--file-path].  The help flag takes no
    value: in a pair whose option is [-h] or [--help] the second component
    stands for whatever follows on the command line, which the parser never
    reaches.  Options placed before the subcommand are not modelled, the
    help flag apart.

    What is modelled is what [get_parser] configures (option names, type
    conversions, required options, mutually exclusive groups, the help
    action every subparser gets) and what [parser.error] does: it prints the
    usage line before it exits with status 2, and the usage formatter of
    CPython 3.11 fails an assertion when a line that has to be wrapped holds
    two consecutive spaces outside brackets, which an option declared with
    [metavar=''] produces when it is required. *)

Module Argparse.

Record Action : Type := {
  option_strings : list string;
  dest : string;
  default : value;
  type : string -> option value;     (* [None]: the conversion raised *)
  required : bool;
  metavar : string;
}.

Inductive GroupKind : Type :=
| MutuallyExclusiveGroup (group_required : bool)
| ArgumentGroup.

Record Group : Type := {
  kind : GroupKind;
  members : list string;             (* the [dest]s added through the group *)
}.

Record Subparser : Type := {
  prog : string;
  add_help : bool;                   (* the [-h/--help] action, first of the parser's actions *)
  actions : list Action;
  groups : list Group;
}.

(** A parser whose only arguments are subcommands, stored under [mode]. *)
Record ArgumentParser : Type := {
  subparsers : list (string * Subparser);
}.

Record CommandLine : Type := {
  subcommand : option string;
  supplied : list (string * string);
}.

(** [len(sys.argv) == 1] *)
Definition bare (argv : CommandLine) : bool :=
  match subcommand argv, supplied argv with
  | None, [] => true
  | _, _ => false
  end.

Definition mem (x : string) (l : list string) : bool := existsb (String.eqb x) l.

Definition find_action (sp : Subparser) (flag : string) : option Action :=
  List.find (fun a => mem flag (option_strings a)) (actions sp).

Definition lookup_subparser (p : ArgumentParser) (name : string) : option Subparser :=
  snd <$> List.find (fun entry => String.eqb name (fst entry)) (subparsers p).

Definition help_strings : list string := ["-h"; "--help"].

Definition is_help (sp : Subparser) (flag : string) : bool :=
  add_help sp && mem flag help_strings.

(** Another member of a mutually exclusive group of [d] was already seen. *)
Definition conflicts (sp : Subparser) (d : string) (seen : list string) : bool :=
  existsb (fun g =>
    match kind g with
    | MutuallyExclusiveGroup _ =>
        mem d (members g)
        && existsb (fun d' => negb (String.eqb d' d) && mem d' seen) (members g)
    | ArgumentGroup => false
    end) (groups sp).

Record Parsed : Type := {
  seen : list string;
  namespace : gmap string value;
  extras : bool;                     (* some option was not recognised *)
}.

(** How a subparser stops short of a namespace. *)
Inductive rejection : Type :=
| ParserError (msg : string)         (* the subparser calls its own [error(msg)] *)
| Leftover                           (* unrecognised options, which the top-level parser reports *)
| Help.                              (* the help action ran *)

Fixpoint consume (sp : Subparser) (args : list (string * string)) (acc : Parsed)
  : rejection + Parsed :=
  match args with
  | [] => inr acc
  | (flag, raw) :: rest =>
      if is_help sp flag then inl Help
      else
        match find_action sp flag with
        | None =>
            consume sp rest {| seen := seen acc; namespace := namespace acc; extras := true |}
        | Some a =>
            match type a raw with
            | None => inl (ParserError ("argument " +:+ flag +:+ ": invalid value"))
            | Some v =>
                if conflicts sp (dest a) (seen acc) then
                  inl (ParserError ("argument " +:+ flag +:+ ": not allowed with argument"))
                else
                  consume sp rest {| seen := dest a :: seen acc;
                                     namespace := <[dest a := v]> (namespace acc);
                                     extras := extras acc |}
            end
        end
  end.

Definition defaults (sp : Subparser) : gmap string value :=
  foldr (fun a ns => <[dest a := default a]> ns) ∅ (actions sp).

Definition missing_required (sp : Subparser) (seen : list string) : bool :=
  existsb (fun a => required a && negb (mem (dest a) seen)) (actions sp).

Definition missing_group (sp : Subparser) (seen : list string) : bool :=
  existsb (fun g =>
    match kind g with
    | MutuallyExclusiveGroup true => negb (existsb (fun d => mem d seen) (members g))
    | _ => false
    end) (groups sp).

Definition parse_subcommand (sp : Subparser) (args : list (string * string))
  : rejection + gmap string value :=
  match consume sp args {| seen := []; namespace := defaults sp; extras := false |} with
  | inl e => inl e
  | inr r =>
      if missing_required sp (seen r) then
        inl (ParserError "the following arguments are required")
      else if missing_group sp (seen r) then
        inl (ParserError "one of the arguments is required")
      else if extras r then
        inl Leftover
      else inr (namespace r)
  end.

(** *** The usage line ([HelpFormatter._format_usage]) *)

Definition is_open (c : ascii) : bool := Ascii.eqb c "(" || Ascii.eqb c "[".
Definition is_close (c : ascii) : bool := Ascii.eqb c ")" || Ascii.eqb c "]".
Definition is_space (c : ascii) : bool := Ascii.eqb c " ".

(** [\s], and what [str.strip] removes, among the ASCII characters. *)
Definition is_whitespace (c : ascii) : bool :=
  let n := nat_of_ascii c in
  (n =? 32)%nat || ((9 <=? n)%nat && (n <=? 13)%nat) || ((28 <=? n)%nat && (n <=? 31)%nat).

Fixpoint spaces (k : nat) : string :=
  match k with
  | O => EmptyString
  | S k' => String " " (spaces k')
  end.

(** [re.sub(r'([\[(]) ', r'\1', text)] *)
Fixpoint sub_open_space (s : string) : string :=
  match s with
  | EmptyString => EmptyString
  | String c tail =>
      match tail with
      | EmptyString => String c EmptyString
      | String c' rest =>
          if is_open c && is_space c' then String c (sub_open_space rest)
          else String c (sub_open_space tail)
      end
  end.

(** [re.sub(r' ([\])])', r'\1', text)] *)
Fixpoint sub_space_close (s : string) : string :=
  match s with
  | EmptyString => EmptyString
  | String c tail =>
      match tail with
      | EmptyString => String c EmptyString
      | String c' rest =>
          if is_space c && is_close c' then String c' (sub_space_close rest)
          else String c (sub_space_close tail)
      end
  end.

(** [re.sub(r'[\[(] *[\])]', r'', text)]; [pending] is an opening bracket
    read, with the spaces that follow it. *)
Fixpoint sub_empty_group (pending : option (ascii * nat)) (s : string) : string :=
  match s with
  | EmptyString =>
      match pending with
      | Some (o, k) => String o (spaces k)
      | None => EmptyString
      end
  | String c tail =>
      match pending with
      | None =>
          if is_open c then sub_empty_group (Some (c, 0)) tail
          else String c (sub_empty_group None tail)
      | Some (o, k) =>
          if is_space c then sub_empty_group (Some (o, S k)) tail
          else if is_close c then sub_empty_group None tail
          else
            String o (spaces k +:+
                      (if is_open c then sub_empty_group (Some (c, 0)) tail
                       else String c (sub_empty_group None tail)))
      end
  end.

(** Position of the last [)] among the characters of [s] that precede its
    first [|]. *)
Fixpoint last_close (s : string) : option nat :=
  match s with
  | EmptyString => None
  | String c t =>
      if Ascii.eqb c "|" then None
      else
        match last_close t with
        | Some n => Some (S n)
        | None => if Ascii.eqb c ")" then Some 0 else None
        end
  end.

(** The last substitution of [_format_actions_usage]: the parentheses
    around a text without bar are removed (an opening parenthesis, as many
    characters other than bars as possible, a closing parenthesis); [copy]
    counts the characters still to copy before the closing parenthesis that
    is dropped. *)
Fixpoint sub_single_group (copy : option nat) (s : string) : string :=
  match s with
  | EmptyString => EmptyString
  | String c t =>
      match copy with
      | Some (S n) => String c (sub_single_group (Some n) t)
      | Some O => sub_single_group None t
      | None =>
          if Ascii.eqb c "(" then
            match last_close t with
            | Some n => sub_single_group (Some n) t
            | None => String c (sub_single_group None t)
            end
          else String c (sub_single_group None t)
      end
  end.

Fixpoint lstrip (s : string) : string :=
  match s with
  | EmptyString => EmptyString
  | String c t => if is_whitespace c then lstrip t else s
  end.

Fixpoint rstrip (s : string) : string :=
  match s with
  | EmptyString => EmptyString
  | String c t =>
      match rstrip t with
      | EmptyString => if is_whitespace c then EmptyString else String c EmptyString
      | t' => String c t'
      end
  end.

(** [text.strip()] *)
Definition strip (s : string) : string := lstrip (rstrip s).

(** The inserts of [_format_actions_usage]: what is put before the part of
    a given index. *)
Definition get_insert (i : nat) (inserts : list (nat * string)) : option string :=
  snd <$> List.find (fun entry => Nat.eqb i (fst entry)) inserts.

Definition put_insert (i : nat) (text : string) (inserts : list (nat * string))
  : list (nat * string) :=
  (i, text) :: List.filter (fun entry => negb (Nat.eqb i (fst entry))) inserts.

Fixpoint index_of (d : string) (l : list string) : option nat :=
  match l with
  | [] => None
  | x :: rest => if String.eqb d x then Some 0 else S <$> index_of d rest
  end.

Definition same_strings (l1 l2 : list string) : bool :=
  Nat.eqb (List.length l1) (List.length l2)
  && forallb (fun p => String.eqb (fst p) (snd p)) (combine l1 l2).

(** A mutually exclusive group whose options follow one another among
    [dests] is shown between parentheses (when required) or brackets, its
    options separated by bars. *)
Definition shown_group (dests : list string) (g : Group) : option (nat * nat * bool) :=
  match kind g, members g with
  | MutuallyExclusiveGroup group_required, first :: _ =>
      match index_of first dests with
      | Some start =>
          let stop := start + List.length (members g) in
          if same_strings (firstn (List.length (members g)) (skipn start dests)) (members g)
          then Some (start, stop, group_required)
          else None
      | None => None
      end
  | _, _ => None
  end.

Definition group_inserts (dests : list string) (inserts : list (nat * string)) (g : Group)
  : list (nat * string) :=
  match shown_group dests g with
  | Some (start, stop, group_required) =>
      let opening := if group_required then "(" else "[" in
      let closing := if group_required then ")" else "]" in
      let inserts :=
        match get_insert start inserts with
        | Some text => put_insert start (text +:+ " " +:+ opening) inserts
        | None => put_insert start opening inserts
        end in
      let inserts :=
        match get_insert stop inserts with
        | Some text => put_insert stop (text +:+ closing) inserts
        | None => put_insert stop closing inserts
        end in
      foldl (fun ins i => put_insert i "|" ins) inserts
            (seq (S start) (stop - S start))
  | None => inserts
  end.

Definition in_shown_group (dests : list string) (gs : list Group) (d : string) : bool :=
  existsb (fun g => match shown_group dests g with
                    | Some _ => mem d (members g)
                    | None => false
                    end) gs.

(** The part of one option: its first option string and its metavar, in
    brackets unless the option is required or shown in a group. *)
Definition usage_part (in_group : bool) (a : Action) : string :=
  let part := hd "" (option_strings a) +:+ " " +:+ metavar a in
  if required a || in_group then part else "[" +:+ part +:+ "]".

Fixpoint with_inserts (i : nat) (inserts : list (nat * string)) (parts : list string)
  : list string :=
  let before := match get_insert i inserts with
                | Some text => [text]
                | None => []
                end in
  match parts with
  | [] => before
  | part :: rest => before ++ part :: with_inserts (S i) inserts rest
  end.

(** [_format_actions_usage(actions, groups)] *)
Definition format_actions_usage (sp : Subparser) : string :=
  let help_dests := if add_help sp then ["help"] else [] in
  let help_parts := if add_help sp then ["[-h]"] else [] in
  let dests := help_dests ++ List.map dest (actions sp) in
  let inserts := foldl (group_inserts dests) [] (groups sp) in
  let parts :=
    help_parts
    ++ List.map (fun a => usage_part (in_shown_group dests (groups sp) (dest a)) a)
         (actions sp) in
  let text := join " " (with_inserts 0 inserts parts) in
  strip (sub_single_group None
           (sub_empty_group None (sub_space_close (sub_open_space text)))).

(** Length, counted from the character after an opening bracket, of the
    shortest text that ends with [close] followed by white space or by the
    end: the match of [\(.*?\)+(?=\s|$)] or of [\[.*?\]+(?=\s|$)]. *)
Fixpoint group_length (close : ascii) (s : string) : option nat :=
  match s with
  | EmptyString => None
  | String c t =>
      let at_boundary := match t with
                         | EmptyString => true
                         | String c' _ => is_whitespace c'
                         end in
      if Ascii.eqb c close && at_boundary then Some 1
      else if Ascii.eqb c (ascii_of_nat 10) then None
      else S <$> group_length close t
  end.

Inductive scanning : Type :=
| Between                            (* no part is open *)
| InWord                             (* in a run of [\S+] *)
| InGroup (remaining : nat).         (* in a bracketed part, so many characters to go *)

Definition push (c : ascii) (parts : list string) : list string :=
  match parts with
  | [] => [String c EmptyString]
  | part :: rest => String c part :: rest
  end.

(** [re.findall(part_regexp, text)]; in the modes [InWord] and [InGroup]
    the head of the result is the rest of the part being read. *)
Fixpoint find_parts (mode : scanning) (s : string) : list string :=
  match s with
  | EmptyString =>
      match mode with
      | Between => []
      | _ => [EmptyString]
      end
  | String c t =>
      match mode with
      | Between =>
          if is_whitespace c then find_parts Between t
          else
            let bracket :=
              if Ascii.eqb c "(" then group_length ")" t
              else if Ascii.eqb c "[" then group_length "]" t
              else None in
            match bracket with
            | Some n => push c (find_parts (InGroup n) t)
            | None => push c (find_parts InWord t)
            end
      | InWord =>
          if is_whitespace c then EmptyString :: find_parts Between t
          else push c (find_parts InWord t)
      | InGroup n =>
          match n with
          | S (S n') => push c (find_parts (InGroup (S n')) t)
          | _ => String c EmptyString :: find_parts Between t
          end
      end
  end.

(** [' '.join(opt_parts) == opt_usage], the assertion of [_format_usage]. *)
Definition parts_rejoin (text : string) : bool :=
  String.eqb (join " " (find_parts Between text)) text.

(** The line to print after the prefix [usage: ]. *)
Definition usage_line (sp : Subparser) : string :=
  prog sp +:+ " " +:+ format_actions_usage sp.

(** [_format_usage] returns: the line fits in the width of the terminal less
    two columns, or its parts can be told apart for wrapping. *)
Definition usage_formats (columns : nat) (sp : Subparser) : bool :=
  (String.length "usage: " + String.length (usage_line sp) + 2 <=? columns)%nat
  || parts_rejoin (format_actions_usage sp).

(** What the user gets when a subparser stops. *)
Definition report (columns : nat) (sp : Subparser) (r : rejection) : exn :=
  match r with
  | Leftover => UsageError "unrecognized arguments"
  | ParserError msg =>
      if usage_formats columns sp then UsageError msg else AssertionError
  | Help =>
      if usage_formats columns sp then HelpRequested else AssertionError
  end.

(** [parser.parse_args()], on a terminal of the given width. *)
Definition parse_args (columns : nat) (p : ArgumentParser) (argv : CommandLine)
  : exn + gmap string value :=
  match subcommand argv with
  | None =>
      match supplied argv with
      | [] => inr {[ "mode" := VNone ]}
      | (flag, _) :: _ =>
          if mem flag help_strings then inl HelpRequested
          else inl (UsageError "unrecognized arguments")
      end
  | Some name =>
      match lookup_subparser p name with
      | None => inl (UsageError "argument mode: invalid choice")
      | Some sp =>
          match parse_subcommand sp (supplied argv) with
          | inl r => inl (report columns sp r)
          | inr ns => inr (<["mode" := VStr name]> ns)
          end
      end
  end.

End Argparse.
Import Argparse.

(** [str] as an argument type. *)
Definition str (raw : string) : option value := Some (VStr raw).

Definition lower_ascii (c : ascii) : ascii :=
  let n := nat_of_ascii c in
  if (65 <=? n)%nat && (n <=? 90)%nat then ascii_of_nat (n + 32) else c.

Fixpoint lower (s : string) : string :=
  match s with
  | EmptyString => EmptyString
  | String c s' => String (lower_ascii c) (lower s')
  end.

(** [lambda x: bool(strtobool(x))], with [distutils.util.strtobool]. *)
Definition strtobool (raw : string) : option value :=
  let val := lower raw in
  if mem val ["y"; "yes"; "t"; "true"; "on"; "1"] then Some (VBool true)
  else if mem val ["n"; "no"; "f"; "false"; "off"; "0"] then Some (VBool false)
  else None.

(** Every option of [main.py] is declared with [default=None] and
    [metavar='']. *)
Definition add_argument (flags : list string) (dest : string)
    (type : string -> option value) (required : bool) : Action :=
  {| option_strings := flags; dest := dest; default := VNone;
     type := type; required := required; metavar := "" |}.

(** The [usage] text given to the top-level parser. *)
Definition quote : string := String (ascii_of_nat 34) EmptyString.

Definition parser_usage : string :=
  "Use " +:+ quote +:+ "notion-scholar --help" +:+ quote +:+ " or "
  +:+ quote +:+ "ns --help" +:+ quote +:+ " for more information".

(** The [prog] that [add_parser] gives a subparser: the usage text of the
    top-level parser, then the name of the subcommand. *)
Definition subparser_prog (name : string) : string := parser_usage +:+ " " +:+ name.

(** The subparsers of [get_parser], given the stored token and
    configuration it has read. *)

Definition run_parser (token : value) (config : gmap string value) : Subparser :=
  let group :=
    if is_None (dict_get config "bib_file_path" VNone)
    then MutuallyExclusiveGroup true
    else ArgumentGroup in
  {| prog := subparser_prog "run";
     add_help := true;
     actions :=
       [ add_argument ["-t"; "--token"] "token" str (is_None token);
         add_argument ["-db"; "--database-id"] "database_id" str false;
         add_argument ["-f"; "--bib-file-path"] "bib_file_path" str false;
         add_argument ["-s"; "--bib-string"] "bib_string" str false ];
     groups := [ {| kind := group; members := ["bib_file_path"; "bib_string"] |} ] |}.

Definition setup_parser : Subparser :=
  {| prog := subparser_prog "set";
     add_help := true;
     actions :=
       [ add_argument ["-f"; "--bib-file-path"] "bib_file_path" str false;
         add_argument ["-s"; "--save"] "save" strtobool false;
         add_argument ["-t"; "--token"] "token" str false;
         add_argument ["-db"; "--database-id"] "database_id" str false ];
     groups := [] |}.

Definition inspect_parser : Subparser :=
  {| prog := subparser_prog "inspect-config"; add_help := true;
     actions := []; groups := [] |}.

Definition clear_parser : Subparser :=
  {| prog := subparser_prog "clear-config"; add_help := true;
     actions := []; groups := [] |}.

Definition download_parser (token : value) : Subparser :=
  {| prog := subparser_prog "download";
     add_help := true;
     actions :=
       [ add_argument ["-f"; "--file-path"] "file_path" str true;
         add_argument ["-t"; "--token"] "token" str (is_None token);
         add_argument ["-db"; "--database-id"] "database_id" str false ];
     groups := [] |}.

Definition get_parser : M ArgumentParser :=
  token ← get_token ;
  config ← get_config ;
  mret {| subparsers :=
            [ ("run", run_parser token config);
              ("set", setup_parser);
              ("inspect-config", inspect_parser);
              ("clear-config", clear_parser);
              ("download", download_parser token) ] |}.

(** ** [main.py] *)

Section Dispatcher.

(** The commands implemented in other modules of the package. *)
Variable run : RunArgs -> M unit.
Variable setup : gmap string value -> M unit.
Variable inspect : M unit.
Variable clear : M unit.

Definition call_run (args : RunArgs) : M unit := log (ERun args) ;; run args.

(** The local helper of both [sanitize_*] functions. *)
Definition fallback (choice_1 choice_2 : value) : value :=
  if is_None choice_1 then choice_2 else choice_1.

Definition sanitize_arguments_and_run
    (token database_id bib_file_path bib_string save : value) : M unit :=
  stored ← get_token ;
  let token := fallback token stored in
  if is_None token then
    raise (ConfigError "The Notion token is not set nor saved.")
  else
    config ← get_config ;
    let database_id := fallback database_id (dict_get config "database_id" VNone) in
    if is_None database_id then
      raise (ConfigError "The database_id is not set nor saved.")
    else
      let bib_file_path := fallback bib_file_path (dict_get config "bib_file_path" VNone) in
      let save_str := dict_get config "save_to_bib_file" (VStr "True") in
      let save_to_bib_file := fallback save (VBool (py_eq save_str (VStr "True"))) in
      call_run {| run_token := token;
                  run_database_id := database_id;
                  run_bib_string := bib_string;
                  run_bib_file_path := bib_file_path;
                  run_save_to_bib_file := save_to_bib_file |}.

Definition sanitize_arguments_and_download
    (file_path : string) (token database_id : value) : M unit :=
  stored ← get_token ;
  let token := fallback token stored in
  if is_None token then
    raise (ConfigError "The Notion token is not set nor saved.")
  else
    config ← get_config ;
    let database_id := fallback database_id (dict_get config "database_id" VNone) in
    if is_None database_id then
      raise (ConfigError "The database_id is not set nor saved.")
    else
      bibtex_str_list ← get_bibtex_string_list_from_database token database_id ;
      print bibtex_str_list ;;
      write_to_file (join LFLF bibtex_str_list) file_path.

Definition print_help : M unit := log EPrintHelp.

Definition main (argv : CommandLine) : M unit :=
  parser ← get_parser ;
  w ← ask_world ;
  arguments ← lift_result (parse_args (columns w) parser argv) ;
  if bare argv then
    print_help ;; raise (SystemExit 1)
  else
    let mode := dict_get arguments "mode" VNone in
    let kwargs := delete "mode" arguments in
    let kw name := dict_get kwargs name VNone in
    if py_eq mode (VStr "run") then
      sanitize_arguments_and_run
        (kw "token") (kw "database_id") (kw "bib_file_path") (kw "bib_string") (kw "save")
    else if py_eq mode (VStr "set") then
      log (ESetup kwargs) ;; setup kwargs
    else if py_eq mode (VStr "inspect-config") then
      log EInspect ;; inspect
    else if py_eq mode (VStr "clear-config") then
      log EClear ;; clear
    else if py_eq mode (VStr "download") then
      match kwargs !! "file_path" with
      | Some (VStr file_path) =>
          sanitize_arguments_and_download file_path (kw "token") (kw "database_id")
      | _ => raise (TypeError "missing or ill-typed argument: file_path")
      end
    else
      raise NotImplementedError.

End Dispatcher.

(** ** The Bibtex Reconciler *)

Module Reconciler.

(** Modelled from the spec: the reconciler belongs to [notion_scholar.run],
    which is not in the source tree.  A BibtexEntry is "a record with a
    unique citation key and an opaque body". *)
Record BibtexEntry : Type := {
  citation_key : string;
  body : string;
}.

#[global] Instance BibtexEntry_eq_dec : EqDecision BibtexEntry.
Proof. solve_decision. Defined.

(** Modelled from the spec: a BibFile is "an ordered text document
    composed of zero or more BibtexEntry blocks"; a document is represented
    by the sequence of its blocks, in file order, the text of the blocks
    being the bibtex library's concern.  A file as found on disk may hold
    several blocks with the same key. *)
Abbreviation BibFile := (list BibtexEntry).

Definition keys (doc : BibFile) : list string := citation_key <$> doc.

Definition has_key (k : string) (doc : BibFile) : bool :=
  existsb (fun e => String.eqb k (citation_key e)) doc.

(** Modelled from the spec: the entry for key [k] in a document, "first
    occurrence wins". *)
Definition entry_for (k : string) (doc : BibFile) : option BibtexEntry :=
  List.find (fun e => String.eqb k (citation_key e)) doc.

(** Modelled from the spec: "if the key is absent, append the entry at the
    end [...]; if the key is already present, the existing entry's block is
    left unchanged". *)
Definition add_entry (mapping : BibFile) (e : BibtexEntry) : BibFile :=
  if has_key (citation_key e) mapping then mapping else mapping ++ [e].

(** Modelled from the spec: "parse existing file into an ordered mapping of
    citation-key -> entry block (first occurrence wins if the source file
    itself has duplicates)". *)
Definition parse_existing (existing : BibFile) : BibFile :=
  foldl add_entry [] existing.

(** Modelled from the spec: [merge(existing_file_content, new_entries)];
    the result lists "pre-existing order first, then newly appended". *)
Definition merge (existing : BibFile) (new_entries : list BibtexEntry) : BibFile :=
  foldl add_entry (parse_existing existing) new_entries.

(** The entries of the spec's scenario. *)
Definition smith2020 : BibtexEntry :=
  {| citation_key := "smith2020"; body := "title = {On Merging}, year = {2020}" |}.
Definition smith2020_different : BibtexEntry :=
  {| citation_key := "smith2020"; body := "title = {DIFFERENT}, year = {2020}" |}.
Definition doe2021 : BibtexEntry :=
  {| citation_key := "doe2021"; body := "title = {A Book}, year = {2021}" |}.

End Reconciler.

(** ** Vocabulary of the statements *)

(** The token and the database id as [sanitize_*] resolve them in [st]. *)
Definition resolved_token (token : value) (st : State) : value :=
  fallback token (stored_token (world st)).

Definition resolved_database_id (database_id : value) (st : State) : value :=
  fallback database_id (dict_get (config_file (world st)) "database_id" VNone).

Definition token_message : string := "The Notion token is not set nor saved.".
Definition database_id_message : string := "The database_id is not set nor saved.".

(** Events that only read the keyring and the configuration. *)
Definition reads_only (evs : list event) : Prop :=
  Forall (fun e => e = EGetToken \/ e = EGetConfig) evs.

(** Some option named in [names] occurs on the command line. *)
Definition supplies (names : list string) (args : list (string * string)) : bool :=
  existsb (fun arg => mem (fst arg) names) args.

(** The option [flag] is recognised by [sp] and stored under [d]. *)
Definition stores_in (sp : Subparser) (d : string) (flag : string) : bool :=
  match find_action sp flag with
  | Some a => String.eqb d (dest a)
  | None => false
  end.

(** Some argument of the command line is stored under [d] by [sp]. *)
Definition selects (sp : Subparser) (d : string) (args : list (string * string)) : bool :=
  existsb (fun arg => stores_in sp d (fst arg)) args.

(** Once [d1] has been seen, [sp] rejects an option stored under [d2]. *)
Definition exclusive (sp : Subparser) (d1 d2 : string) : Prop :=
  forall seen, mem d1 seen = true -> conflicts sp d2 seen = true.

(** The command line asks for help. *)
Definition asks_help (args : list (string * string)) : bool :=
  supplies help_strings args.

(** The content of a file that holds the given entries, each as it is, in
    their order, with one blank line (two line feed characters) between
    consecutive entries and nothing else.  This follows the words of the
    property; the program's own [join] is compared with it. *)
Inductive blank_line_separated : list string -> string -> Prop :=
| separated_none : blank_line_separated [] EmptyString
| separated_last entry : blank_line_separated [entry] entry
| separated_more entry next rest text :
    blank_line_separated (next :: rest) text ->
    blank_line_separated (entry :: next :: rest)
      (entry +:+ String "010" (String "010" text)).

(** The state in which [main] parses: keyring and configuration were read
    by [get_parser]. *)
Definition parser_built (st : State) : State := after st [EGetToken; EGetConfig].

(** The parser that [get_parser] returns in the state [st]. *)
Definition built_parser (st : State) : ArgumentParser :=
  {| subparsers :=
       [ ("run", run_parser (stored_token (world st)) (config_file (world st)));
         ("set", setup_parser);
         ("inspect-config", inspect_parser);
         ("clear-config", clear_parser);
         ("download", download_parser (stored_token (world st))) ] |}.


(** *** Sample environments *)

Definition two_rows : value -> value -> exn + list string :=
  fun _ _ => inr ["@article{smith2020, year = 2020}"; "@book{doe2021, year = 2021}"].

(** Nothing stored at all. *)
Definition fresh_install : State :=
  {| world := {| keyring := None; config_file := ∅; notion := two_rows; files := ∅; columns := 120 |};
     trace := [] |}.

(** A token and a database id are stored, nothing else. *)
Definition configured : State :=
  {| world := {| keyring := Some "secret_stored";
                 config_file := {[ "database_id" := VStr "db1" ]};
                 notion := two_rows; files := ∅; columns := 120 |};
     trace := [] |}.

(** A token is stored, no database id. *)
Definition token_only : State :=
  {| world := {| keyring := Some "secret_stored"; config_file := ∅;
                 notion := two_rows; files := ∅; columns := 120 |};
     trace := [] |}.

(** The save flag is stored as the boolean [True]. *)
Definition save_as_boolean : State :=
  {| world := {| keyring := Some "secret_stored";
                 config_file := {[ "database_id" := VStr "db1";
                                   "save_to_bib_file" := VBool true ]};
                 notion := two_rows; files := ∅; columns := 120 |};
     trace := [] |}.

(** The save flag is stored as the text ['True']. *)
Definition save_as_text : State :=
  {| world := {| keyring := Some "secret_stored";
                 config_file := {[ "database_id" := VStr "db1";
                                   "save_to_bib_file" := VStr "True" ]};
                 notion := two_rows; files := ∅; columns := 120 |};
     trace := [] |}.

(** A bib file path is stored. *)
Definition with_bib_file : State :=
  {| world := {| keyring := Some "secret_stored";
                 config_file := {[ "database_id" := VStr "db1";
                                   "bib_file_path" := VStr "/home/u/refs.bib" ]};
                 notion := two_rows; files := ∅; columns := 120 |};
     trace := [] |}.

(** A token and a database id are stored; the terminal has the customary
    80 columns. *)
Definition configured_narrow : State :=
  {| world := {| keyring := Some "secret_stored";
                 config_file := {[ "database_id" := VStr "db1" ]};
                 notion := two_rows; files := ∅; columns := 80 |};
     trace := [] |}.

(** Nothing stored, 80 columns. *)
Definition fresh_narrow : State :=
  {| world := {| keyring := None; config_file := ∅; notion := two_rows; files := ∅;
                 columns := 80 |};
     trace := [] |}.

(** Collaborators that return at once. *)
Definition stub_run : RunArgs -> M unit := fun _ => mret tt.
Definition stub_setup : gmap string value -> M unit := fun _ => mret tt.
Definition stub : M unit := mret tt.

(** *** Vocabulary of the further properties *)

(** The world [w] with the file at [file_path] holding [content]. *)
Definition with_file (w : World) (file_path content : string) : World :=
  {| keyring := keyring w;
     config_file := config_file w;
     notion := notion w;
     files := <[file_path := content]> (files w);
     columns := columns w |}.

(** The value [sp] leaves under [d] after the command line [args]: that of
    the last option stored there, converted by the option's type. *)
Fixpoint parsed_value (sp : Subparser) (d : string) (args : list (string * string))
  : option value :=
  match args with
  | [] => None
  | arg :: rest =>
      match parsed_value sp d rest with
      | Some v => Some v
      | None =>
          match find_action sp (fst arg) with
          | Some a => if String.eqb d (dest a) then type a (snd arg) else None
          | None => None
          end
      end
  end.

(** The keyword argument [d] that [main] passes on: [None] unless an option
    of the command line is stored under [d]. *)
Definition cli_value (sp : Subparser) (d : string) (args : list (string * string)) : value :=
  match parsed_value sp d args with
  | Some v => v
  | None => VNone
  end.

(** Every option of the command line is one of [sp]. *)
Definition recognised (sp : Subparser) (args : list (string * string)) : bool :=
  forallb (fun arg => match find_action sp (fst arg) with
                      | Some _ => true
                      | None => false
                      end) args.

(** Every option of [sp] has type [str]. *)
Definition all_str (sp : Subparser) : Prop :=
  forall a, In a (actions sp) -> type a = str.

(** The command line [args] is accepted by [sp]. *)
Definition parses (sp : Subparser) (args : list (string * string)) : bool :=
  match parse_subcommand sp args with
  | inr _ => true
  | inl _ => false
  end.

(** The names [main] dispatches on. *)
Definition subcommands : list string :=
  ["run"; "set"; "inspect-config"; "clear-config"; "download"].

(** The save flag as the configuration alone decides it. *)
Definition configured_save (config : gmap string value) : value :=
  VBool (py_eq (dict_get config "save_to_bib_file" (VStr "True")) (VStr "True")).

(** The remote service rejects every request. *)
Definition remote_down : State :=
  {| world := {| keyring := Some "secret_stored";
                 config_file := {[ "database_id" := VStr "db1" ]};
                 notion := fun _ _ => inl (RemoteError "unauthorized");
                 files := {[ "out.bib" := "previous content" ]};
                 columns := 120 |};
     trace := [] |}.

(** * Properties *)

(** ** The state monad *)

Lemma after_after st evs evs' : after (after st evs) evs' = after st (evs ++ evs').
Proof. unfold after; simpl. by rewrite <- (assoc_L (++)). Qed.

Lemma world_after st evs : world (after st evs) = world st.
Proof. reflexivity. Qed.

Lemma log_after e st : log e st = (after st [e], inr tt).
Proof. reflexivity. Qed.

Lemma get_token_eq st : get_token st = (after st [EGetToken], inr (stored_token (world st))).
Proof. reflexivity. Qed.

Lemma get_config_eq st : get_config st = (after st [EGetConfig], inr (config_file (world st))).
Proof. reflexivity. Qed.

Lemma bind_eq {A B} (m : M A) (f : A -> M B) st st' a :
  m st = (st', inr a) -> (m ≫= f) st = f a st'.
Proof. intros H. unfold mbind, M_bind. by rewrite H. Qed.

Lemma bind_raise {A B} (m : M A) (f : A -> M B) st st' e :
  m st = (st', inl e) -> (m ≫= f) st = (st', inl e).
Proof. intros H. unfold mbind, M_bind. by rewrite H. Qed.

(** ** Parameter resolution *)

Section Resolution.

Variable run : RunArgs -> M unit.

Lemma run_token_unresolved token database_id bib_file_path bib_string save st :
  is_None (resolved_token token st) = true ->
  sanitize_arguments_and_run run token database_id bib_file_path bib_string save st
  = (after st [EGetToken], inl (ConfigError token_message)).
Proof.
  intros H. unfold sanitize_arguments_and_run.
  rewrite (bind_eq _ _ _ _ _ (get_token_eq st)).
  unfold resolved_token in H. by rewrite H.
Qed.

Lemma run_database_id_unresolved token database_id bib_file_path bib_string save st :
  is_None (resolved_token token st) = false ->
  is_None (resolved_database_id database_id st) = true ->
  sanitize_arguments_and_run run token database_id bib_file_path bib_string save st
  = (after st [EGetToken; EGetConfig], inl (ConfigError database_id_message)).
Proof.
  intros Ht Hd. unfold sanitize_arguments_and_run.
  rewrite (bind_eq _ _ _ _ _ (get_token_eq st)).
  unfold resolved_token in Ht. rewrite Ht.
  rewrite (bind_eq _ _ _ _ _ (get_config_eq _)). rewrite world_after.
  unfold resolved_database_id in Hd. rewrite Hd.
  by rewrite after_after.
Qed.

(** The arguments [run] is entered with once token and database id are
    resolved. *)
Lemma run_resolved token database_id bib_file_path bib_string save st :
  is_None (resolved_token token st) = false ->
  is_None (resolved_database_id database_id st) = false ->
  let config := config_file (world st) in
  let args :=
    {| run_token := resolved_token token st;
       run_database_id := resolved_database_id database_id st;
       run_bib_string := bib_string;
       run_bib_file_path := fallback bib_file_path (dict_get config "bib_file_path" VNone);
       run_save_to_bib_file :=
         fallback save (VBool (py_eq (dict_get config "save_to_bib_file" (VStr "True"))
                                     (VStr "True"))) |} in
  sanitize_arguments_and_run run token database_id bib_file_path bib_string save st
  = run args (after st [EGetToken; EGetConfig; ERun args]).
Proof.
  intros Ht Hd config args. unfold sanitize_arguments_and_run.
  rewrite (bind_eq _ _ _ _ _ (get_token_eq st)).
  unfold resolved_token in Ht. rewrite Ht.
  rewrite (bind_eq _ _ _ _ _ (get_config_eq _)). rewrite world_after.
  unfold resolved_database_id in Hd. rewrite Hd.
  unfold call_run. rewrite (bind_eq _ _ _ _ _ (log_after _ _)).
  by rewrite !after_after.
Qed.

Lemma download_token_unresolved file_path token database_id st :
  is_None (resolved_token token st) = true ->
  sanitize_arguments_and_download file_path token database_id st
  = (after st [EGetToken], inl (ConfigError token_message)).
Proof.
  intros H. unfold sanitize_arguments_and_download.
  rewrite (bind_eq _ _ _ _ _ (get_token_eq st)).
  unfold resolved_token in H. by rewrite H.
Qed.

Lemma download_database_id_unresolved file_path token database_id st :
  is_None (resolved_token token st) = false ->
  is_None (resolved_database_id database_id st) = true ->
  sanitize_arguments_and_download file_path token database_id st
  = (after st [EGetToken; EGetConfig], inl (ConfigError database_id_message)).
Proof.
  intros Ht Hd. unfold sanitize_arguments_and_download.
  rewrite (bind_eq _ _ _ _ _ (get_token_eq st)).
  unfold resolved_token in Ht. rewrite Ht.
  rewrite (bind_eq _ _ _ _ _ (get_config_eq _)). rewrite world_after.
  unfold resolved_database_id in Hd. rewrite Hd.
  by rewrite after_after.
Qed.

End Resolution.

Lemma is_None_true v : is_None v = true <-> v = VNone.
Proof. destruct v; simpl; split; congruence. Qed.

Lemma stored_token_None st : keyring (world st) = None -> stored_token (world st) = VNone.
Proof. unfold stored_token. by intros ->. Qed.

Lemma dict_get_None (d : gmap string value) key default :
  d !! key = None -> dict_get d key default = default.
Proof. unfold dict_get. by intros ->. Qed.

Lemma dict_get_Some (d : gmap string value) key default v :
  d !! key = Some v -> dict_get d key default = v.
Proof. unfold dict_get. by intros ->. Qed.

Lemma fallback_explicit choice_1 choice_2 :
  is_None choice_1 = false -> fallback choice_1 choice_2 = choice_1.
Proof. unfold fallback. by intros ->. Qed.

Lemma fallback_None choice_2 : fallback VNone choice_2 = choice_2.
Proof. reflexivity. Qed.

(** C2: an explicitly passed token is the one [run] is entered with, whatever
    the keyring holds (and if the database id is missing, the error is about
    the database id, not the token); with no token passed and none stored,
    [sanitize_arguments_and_run] raises a [ConfigError] whose message
    mentions the token, after reading the keyring and nothing else (no
    configuration read, no entry into [run], no network call). *)
Theorem run_token_resolution
    run token database_id bib_file_path bib_string save st :
  (is_None token = false ->
   (is_None (resolved_database_id database_id st) = false ->
    exists args,
      run_token args = token /\
      sanitize_arguments_and_run run token database_id bib_file_path bib_string save st
      = run args (after st [EGetToken; EGetConfig; ERun args]))
   /\
   (is_None (resolved_database_id database_id st) = true ->
    sanitize_arguments_and_run run token database_id bib_file_path bib_string save st
    = (after st [EGetToken; EGetConfig], inl (ConfigError database_id_message))))
  /\
  (token = VNone ->
   keyring (world st) = None ->
   exists msg,
     contains "token" msg = true /\
     sanitize_arguments_and_run run token database_id bib_file_path bib_string save st
     = (after st [EGetToken], inl (ConfigError msg))).
Proof.
  split.
  - intros Htok.
    assert (Hres : resolved_token token st = token)
      by (by apply fallback_explicit).
    split; intros Hdb.
    + eexists; split; [| apply run_resolved; [by rewrite Hres | done]].
      simpl. exact Hres.
    + apply run_database_id_unresolved; [by rewrite Hres | done].
  - intros -> Hkey. exists token_message. split; [reflexivity |].
    apply run_token_unresolved.
    unfold resolved_token. rewrite fallback_None.
    by rewrite stored_token_None.
Qed.

Lemma run_token_resolution_witness :
  (exists args,
     run_token args = VStr "secret_passed" /\
     sanitize_arguments_and_run stub_run (VStr "secret_passed") VNone VNone VNone VNone configured
     = stub_run args (after configured [EGetToken; EGetConfig; ERun args]))
  /\
  (exists msg,
     contains "token" msg = true /\
     sanitize_arguments_and_run stub_run VNone VNone VNone VNone VNone fresh_install
     = (after fresh_install [EGetToken], inl (ConfigError msg))).
Proof.
  split.
  - destruct (run_token_resolution stub_run (VStr "secret_passed") VNone VNone VNone VNone
                configured) as [Hexplicit _].
    destruct (Hexplicit eq_refl) as [Hrun _].
    apply Hrun. reflexivity.
  - destruct (run_token_resolution stub_run VNone VNone VNone VNone VNone fresh_install)
      as [_ Hmissing].
    apply Hmissing; reflexivity.
Defined.

(** The passed token reaches [run]; the stored one does not. *)
Example run_ignores_stored_token :
  fst (sanitize_arguments_and_run stub_run (VStr "secret_passed") VNone VNone VNone VNone
         configured)
  = after configured
      [EGetToken; EGetConfig;
       ERun {| run_token := VStr "secret_passed"; run_database_id := VStr "db1";
               run_bib_string := VNone; run_bib_file_path := VNone;
               run_save_to_bib_file := VBool true |}].
Proof. reflexivity. Qed.

(** C10: when neither a token nor a database id is passed or stored, both
    [sanitize_arguments_and_run] and [sanitize_arguments_and_download] raise
    the [ConfigError] about the token, whose message does not mention the
    database_id: the token is checked first, before the configuration is
    even read. *)
Theorem token_checked_before_database_id
    run file_path bib_file_path bib_string save st :
  keyring (world st) = None ->
  config_file (world st) !! "database_id" = None ->
  exists msg,
    contains "token" msg = true /\
    contains "database_id" msg = false /\
    sanitize_arguments_and_run run VNone VNone bib_file_path bib_string save st
    = (after st [EGetToken], inl (ConfigError msg)) /\
    sanitize_arguments_and_download file_path VNone VNone st
    = (after st [EGetToken], inl (ConfigError msg)).
Proof.
  intros Hkey _. exists token_message.
  assert (Hres : is_None (resolved_token VNone st) = true).
  { unfold resolved_token. rewrite fallback_None. by rewrite stored_token_None. }
  split; [reflexivity |]. split; [reflexivity |]. split.
  - by apply run_token_unresolved.
  - by apply download_token_unresolved.
Qed.

Lemma token_checked_before_database_id_witness :
  exists msg,
    contains "token" msg = true /\
    contains "database_id" msg = false /\
    sanitize_arguments_and_run stub_run VNone VNone VNone VNone VNone fresh_install
    = (after fresh_install [EGetToken], inl (ConfigError msg)) /\
    sanitize_arguments_and_download "out.bib" VNone VNone fresh_install
    = (after fresh_install [EGetToken], inl (ConfigError msg)).
Proof.
  apply (token_checked_before_database_id stub_run "out.bib" VNone VNone VNone fresh_install);
    reflexivity.
Defined.

(** C3, as stated, fails: with no database id passed or stored and no token
    either, [run] and [download] raise the [ConfigError] about the token,
    whose message does not name the database_id. *)
Lemma database_id_error_counterexample :
  config_file (world fresh_install) !! "database_id" = None /\
  sanitize_arguments_and_run stub_run VNone VNone VNone VNone VNone fresh_install
  = (after fresh_install [EGetToken], inl (ConfigError "The Notion token is not set nor saved.")) /\
  sanitize_arguments_and_download "out.bib" VNone VNone fresh_install
  = (after fresh_install [EGetToken], inl (ConfigError "The Notion token is not set nor saved.")) /\
  contains "database_id" "The Notion token is not set nor saved." = false.
Proof. repeat split. Qed.

(** C3, amended: when the token is resolved (passed or stored) and no database
    id is passed or stored, [run] and [download] raise a [ConfigError] whose
    message names the database_id; keyring and configuration have been read
    once each and nothing is attempted afterwards. *)
Theorem database_id_error
    run file_path token bib_file_path bib_string save st :
  is_None (resolved_token token st) = false ->
  config_file (world st) !! "database_id" = None ->
  exists msg,
    contains "database_id" msg = true /\
    sanitize_arguments_and_run run token VNone bib_file_path bib_string save st
    = (after st [EGetToken; EGetConfig], inl (ConfigError msg)) /\
    sanitize_arguments_and_download file_path token VNone st
    = (after st [EGetToken; EGetConfig], inl (ConfigError msg)).
Proof.
  intros Htok Hdb. exists database_id_message.
  assert (Hres : is_None (resolved_database_id VNone st) = true).
  { unfold resolved_database_id. rewrite fallback_None. by rewrite dict_get_None. }
  split; [reflexivity |]. split.
  - by apply run_database_id_unresolved.
  - by apply download_database_id_unresolved.
Qed.

Lemma database_id_error_witness :
  exists msg,
    contains "database_id" msg = true /\
    sanitize_arguments_and_run stub_run VNone VNone VNone VNone VNone token_only
    = (after token_only [EGetToken; EGetConfig], inl (ConfigError msg)) /\
    sanitize_arguments_and_download "out.bib" VNone VNone token_only
    = (after token_only [EGetToken; EGetConfig], inl (ConfigError msg)).
Proof.
  apply (database_id_error stub_run "out.bib" VNone VNone VNone VNone token_only);
    reflexivity.
Defined.

(** C8: when the token or the database id cannot be resolved,
    [sanitize_arguments_and_download] raises a [ConfigError] in a state whose
    world (the files in particular) is the initial one and whose new events
    are reads of the keyring and of the configuration only: no fetch, no
    write. *)
Theorem download_resolution_precedes_effects file_path token database_id st :
  is_None (resolved_token token st) = true
  \/ is_None (resolved_database_id database_id st) = true ->
  exists msg evs,
    sanitize_arguments_and_download file_path token database_id st
    = (after st evs, inl (ConfigError msg)) /\
    reads_only evs /\
    files (world (after st evs)) = files (world st).
Proof.
  intros H.
  destruct (is_None (resolved_token token st)) eqn:Htok.
  - exists token_message, [EGetToken]. split; [by apply download_token_unresolved |].
    split; [| done]. repeat constructor.
  - destruct H as [H | H]; [done |].
    exists database_id_message, [EGetToken; EGetConfig].
    split; [by apply download_database_id_unresolved |].
    split; [| done]. repeat constructor; by right.
Qed.

Lemma download_resolution_precedes_effects_witness :
  exists msg evs,
    sanitize_arguments_and_download "out.bib" VNone VNone token_only
    = (after token_only evs, inl (ConfigError msg)) /\
    reads_only evs /\
    files (world (after token_only evs)) = files (world token_only).
Proof.
  apply (download_resolution_precedes_effects "out.bib" VNone VNone token_only).
  right. reflexivity.
Defined.

Lemma join_two sep x y l : join sep (x :: y :: l) = x +:+ sep +:+ join sep (y :: l).
Proof. reflexivity. Qed.

Lemma LFLF_two_line_feeds : LFLF = String "010" (String "010" EmptyString).
Proof. reflexivity. Qed.

(** What [join] builds with the separator ['\n\n'] is the text described by
    [blank_line_separated], and no other text is. *)
Lemma join_blank_line_separated entries :
  blank_line_separated entries (join LFLF entries).
Proof.
  induction entries as [| entry rest IH]; [constructor |].
  destruct rest as [| next rest]; [constructor |].
  rewrite join_two. by apply (separated_more entry next rest).
Qed.

Lemma blank_line_separated_unique entries text text' :
  blank_line_separated entries text ->
  blank_line_separated entries text' ->
  text = text'.
Proof.
  intros H. revert text'. induction H as [| entry | entry next rest text H IH];
    intros text' H'; inversion H'; subst; try done.
  f_equal. f_equal. f_equal. by apply IH.
Qed.

(** C7: a [download] that returns normally has fetched the entries once, with
    the resolved token and database id, and has replaced the file at
    [file_path] by a text that holds these entries as they were fetched, in
    the order fetched, with one blank line between consecutive entries and
    nothing else; no other file is touched. *)
Theorem download_writes_fetched_entries file_path token database_id st st' :
  sanitize_arguments_and_download file_path token database_id st = (st', inr tt) ->
  exists entries content,
    notion (world st) (resolved_token token st) (resolved_database_id database_id st)
    = inr entries /\
    blank_line_separated entries content /\
    files (world st') !! file_path = Some content /\
    files (world st') = <[file_path := content]> (files (world st)) /\
    trace st' = trace st ++
      [EGetToken; EGetConfig;
       EFetch (resolved_token token st) (resolved_database_id database_id st);
       EPrint entries; EWrite content file_path].
Proof.
  intros H.
  destruct (is_None (resolved_token token st)) eqn:Htok.
  { by rewrite download_token_unresolved in H. }
  destruct (is_None (resolved_database_id database_id st)) eqn:Hdb.
  { by rewrite download_database_id_unresolved in H. }
  unfold sanitize_arguments_and_download in H.
  rewrite (bind_eq _ _ _ _ _ (get_token_eq st)) in H.
  unfold resolved_token in Htok. rewrite Htok in H.
  rewrite (bind_eq _ _ _ _ _ (get_config_eq _)) in H. rewrite world_after in H.
  unfold resolved_database_id in Hdb. rewrite Hdb in H.
  unfold get_bibtex_string_list_from_database, print, ask_world, lift_result, log in H.
  unfold mbind, M_bind, write_to_file in H. simpl in H.
  fold (resolved_token token st) in H.
  fold (resolved_database_id database_id st) in H.
  destruct (notion (world st) (resolved_token token st)
              (resolved_database_id database_id st)) as [e | entries] eqn:Hfetch;
    [discriminate |].
  exists entries, (join LFLF entries). injection H as <-. simpl.
  split; [done |]. split; [apply join_blank_line_separated |].
  split; [by rewrite lookup_insert_eq |]. split; [done |].
  by rewrite <- !(assoc_L (++)).
Qed.

Lemma download_writes_fetched_entries_witness :
  exists entries content,
    notion (world configured) (resolved_token VNone configured)
      (resolved_database_id VNone configured) = inr entries /\
    blank_line_separated entries content /\
    files (world (fst (sanitize_arguments_and_download "out.bib" VNone VNone configured)))
      !! "out.bib" = Some content /\
    files (world (fst (sanitize_arguments_and_download "out.bib" VNone VNone configured)))
    = <["out.bib" := content]> (files (world configured)) /\
    trace (fst (sanitize_arguments_and_download "out.bib" VNone VNone configured))
    = trace configured ++
      [EGetToken; EGetConfig;
       EFetch (resolved_token VNone configured) (resolved_database_id VNone configured);
       EPrint entries; EWrite content "out.bib"].
Proof.
  apply (download_writes_fetched_entries "out.bib" VNone VNone configured).
  reflexivity.
Defined.

(** The file written by the sample download. *)
Example download_sample_file :
  files (world (fst (sanitize_arguments_and_download "out.bib" VNone VNone configured)))
    !! "out.bib"
  = Some ("@article{smith2020, year = 2020}" +:+ LF +:+ LF +:+ "@book{doe2021, year = 2021}").
Proof. reflexivity. Qed.

(** C1, as stated, fails: with the save flag stored as the boolean [True] and
    no explicit [save], [run] is entered with [save_to_bib_file = False],
    because the stored value is compared with the text ['True']. *)
Lemma save_flag_boolean_counterexample :
  config_file (world save_as_boolean) !! "save_to_bib_file" = Some (VBool true) /\
  sanitize_arguments_and_run stub_run VNone VNone VNone VNone VNone save_as_boolean
  = stub_run
      {| run_token := VStr "secret_stored"; run_database_id := VStr "db1";
         run_bib_string := VNone; run_bib_file_path := VNone;
         run_save_to_bib_file := VBool false |}
      (after save_as_boolean
         [EGetToken; EGetConfig;
          ERun {| run_token := VStr "secret_stored"; run_database_id := VStr "db1";
                  run_bib_string := VNone; run_bib_file_path := VNone;
                  run_save_to_bib_file := VBool false |}]).
Proof. split; reflexivity. Qed.

(** C1, amended: once token and database id are resolved, [run] is entered
    with a save flag that is the explicit [save] when one is given; otherwise
    the truth value of "the stored [save_to_bib_file] equals the text
    ['True']" when a value is stored (so [True] for a stored ['True']); and
    [True] when nothing is stored. *)
Theorem save_flag_resolution
    run token database_id bib_file_path bib_string save st :
  is_None (resolved_token token st) = false ->
  is_None (resolved_database_id database_id st) = false ->
  exists args,
    sanitize_arguments_and_run run token database_id bib_file_path bib_string save st
    = run args (after st [EGetToken; EGetConfig; ERun args]) /\
    (is_None save = false -> run_save_to_bib_file args = save) /\
    (save = VNone ->
     forall v, config_file (world st) !! "save_to_bib_file" = Some v ->
               run_save_to_bib_file args = VBool (py_eq v (VStr "True"))) /\
    (save = VNone ->
     config_file (world st) !! "save_to_bib_file" = Some (VStr "True") ->
     run_save_to_bib_file args = VBool true) /\
    (save = VNone ->
     config_file (world st) !! "save_to_bib_file" = None ->
     run_save_to_bib_file args = VBool true).
Proof.
  intros Htok Hdb. eexists. split; [by apply run_resolved |]. simpl.
  split; [| split; [| split]].
  - apply fallback_explicit.
  - intros -> v Hv. by rewrite fallback_None, (dict_get_Some _ _ _ _ Hv).
  - intros -> Hv. by rewrite fallback_None, (dict_get_Some _ _ _ _ Hv).
  - intros -> Hv. by rewrite fallback_None, (dict_get_None _ _ _ Hv).
Qed.

Lemma save_flag_resolution_witness :
  exists args,
    sanitize_arguments_and_run stub_run VNone VNone VNone VNone VNone save_as_text
    = stub_run args (after save_as_text [EGetToken; EGetConfig; ERun args]) /\
    run_save_to_bib_file args = VBool true.
Proof.
  destruct (save_flag_resolution stub_run VNone VNone VNone VNone VNone save_as_text)
    as (args & Hrun & _ & _ & Htext & _); [reflexivity | reflexivity |].
  exists args. split; [exact Hrun |].
  apply Htext; reflexivity.
Defined.

(** The three sources of the save flag, evaluated. *)
Example save_explicit_wins :
  fst (sanitize_arguments_and_run stub_run VNone VNone VNone VNone (VBool false) save_as_text)
  = after save_as_text
      [EGetToken; EGetConfig;
       ERun {| run_token := VStr "secret_stored"; run_database_id := VStr "db1";
               run_bib_string := VNone; run_bib_file_path := VNone;
               run_save_to_bib_file := VBool false |}].
Proof. reflexivity. Qed.

Example save_default :
  fst (sanitize_arguments_and_run stub_run VNone VNone VNone VNone VNone configured)
  = after configured
      [EGetToken; EGetConfig;
       ERun {| run_token := VStr "secret_stored"; run_database_id := VStr "db1";
               run_bib_string := VNone; run_bib_file_path := VNone;
               run_save_to_bib_file := VBool true |}].
Proof. reflexivity. Qed.

(** ** The parser *)

Section Parsing.

Variable sp : Subparser.

Lemma is_help_supplies flag raw rest :
  asks_help ((flag, raw) :: rest) = false ->
  is_help sp flag = false /\ asks_help rest = false.
Proof.
  unfold asks_help, supplies, is_help. simpl. intros H.
  apply orb_false_elim in H as [-> H]. split; [apply andb_false_r | exact H].
Qed.

(** Unless the command line asks for help, the options are turned down
    through the subparser's [error]. *)
Lemma consume_error args acc e :
  asks_help args = false ->
  consume sp args acc = inl e -> exists msg, e = ParserError msg.
Proof.
  revert acc. induction args as [| [flag raw] rest IH]; intros acc Hh H; simpl in H.
  - discriminate.
  - apply is_help_supplies in Hh as [Hflag Hrest]. rewrite Hflag in H.
    destruct (find_action sp flag) as [a |]; [| by eapply IH].
    destruct (type a raw) as [v |]; [| injection H as <-; eauto].
    destruct (conflicts sp (dest a) (seen acc)); [injection H as <-; eauto |].
    by eapply IH.
Qed.

(** After a successful pass, the destinations seen are those seen before
    and those the command line selects. *)
Lemma consume_seen d args acc r :
  consume sp args acc = inr r ->
  mem d (seen r) = mem d (seen acc) || selects sp d args.
Proof.
  revert acc. induction args as [| [flag raw] rest IH]; intros acc H; simpl in H.
  - injection H as <-. simpl. by rewrite orb_false_r.
  - destruct (is_help sp flag); [discriminate |].
    unfold selects; simpl. fold (selects sp d rest). unfold stores_in.
    destruct (find_action sp flag) as [a |].
    + destruct (type a raw) as [v |]; [| discriminate].
      destruct (conflicts sp (dest a) (seen acc)); [discriminate |].
      rewrite (IH _ H). simpl.
      by rewrite orb_assoc, (orb_comm (d =? dest a)%string).
    + by rewrite (IH _ H).
Qed.

Lemma consume_exclusive_seen d1 d2 args acc :
  exclusive sp d1 d2 ->
  asks_help args = false ->
  mem d1 (seen acc) = true ->
  selects sp d2 args = true ->
  exists msg, consume sp args acc = inl (ParserError msg).
Proof.
  intros Hex. revert acc.
  induction args as [| [flag raw] rest IH]; intros acc Hh Hseen Hsel.
  - discriminate.
  - apply is_help_supplies in Hh as [Hflag Hrest].
    unfold selects in Hsel; simpl in Hsel. fold (selects sp d2 rest) in Hsel.
    unfold stores_in in Hsel. simpl. rewrite Hflag.
    destruct (find_action sp flag) as [a |]; [| by apply IH].
    destruct (type a raw) as [v |]; [| eauto].
    destruct (conflicts sp (dest a) (seen acc)) eqn:Hc; [eauto |].
    apply IH; [done | |].
    + simpl. by rewrite Hseen, orb_true_r.
    + destruct (String.eqb_spec d2 (dest a)) as [-> | _]; [| done].
      by rewrite (Hex _ Hseen) in Hc.
Qed.

(** Two options of a mutually exclusive pair on one command line are
    rejected. *)
Lemma consume_exclusive d1 d2 args acc :
  exclusive sp d1 d2 ->
  exclusive sp d2 d1 ->
  asks_help args = false ->
  selects sp d1 args = true ->
  selects sp d2 args = true ->
  exists msg, consume sp args acc = inl (ParserError msg).
Proof.
  intros H12 H21. revert acc.
  induction args as [| [flag raw] rest IH]; intros acc Hh Hs1 Hs2.
  - discriminate.
  - apply is_help_supplies in Hh as [Hflag Hrest].
    unfold selects in Hs1, Hs2; simpl in Hs1, Hs2.
    fold (selects sp d1 rest) in Hs1. fold (selects sp d2 rest) in Hs2.
    unfold stores_in in Hs1, Hs2. simpl. rewrite Hflag.
    destruct (find_action sp flag) as [a |]; [| by apply IH].
    destruct (type a raw) as [v |]; [| eauto].
    destruct (conflicts sp (dest a) (seen acc)) eqn:Hc; [eauto |].
    destruct (String.eqb_spec d1 (dest a)) as [E1 | _].
    + destruct (String.eqb_spec d2 (dest a)) as [E2 | _].
      * (* the option is stored under both: it excludes itself *)
        apply (consume_exclusive_seen d1 d2); [done | done | | ].
        -- simpl. by rewrite E1, String.eqb_refl.
        -- simpl in Hs1, Hs2.
           destruct (selects sp d2 rest) eqn:Hr; [done |].
           exfalso. subst d1 d2.
           specialize (H12 [dest a]). simpl in H12.
           rewrite String.eqb_refl in H12. specialize (H12 eq_refl).
           clear -H12 Hc Hr.
           unfold conflicts in H12.
           apply existsb_exists in H12 as (g & _ & Hg).
           destruct (kind g); [| done].
           apply andb_prop in Hg as [_ Hg].
           apply existsb_exists in Hg as (d' & _ & Hd').
           apply andb_prop in Hd' as [Hne Hin].
           simpl in Hin. rewrite orb_false_r in Hin.
           by rewrite Hin in Hne.
      * apply (consume_exclusive_seen d1 d2); [done | done | | done].
        simpl. by rewrite E1, String.eqb_refl.
    + destruct (String.eqb_spec d2 (dest a)) as [E2 | _].
      * apply (consume_exclusive_seen d2 d1); [done | done | | done].
        simpl. by rewrite E2, String.eqb_refl.
      * by apply IH.
Qed.

Lemma selects_supplies d names args :
  (forall flag, stores_in sp d flag = mem flag names) ->
  selects sp d args = supplies names args.
Proof.
  intros H. unfold selects, supplies.
  induction args as [| arg rest IH]; simpl; [done |].
  by rewrite H, IH.
Qed.

End Parsing.

Ltac by_option_name flag :=
  unfold stores_in, find_action, mem; simpl;
  repeat match goal with
         | |- context [String.eqb flag ?s] =>
             destruct (String.eqb_spec flag s); [subst flag; reflexivity |]
         end;
  reflexivity.

Lemma run_parser_bib_file_path token config flag :
  stores_in (run_parser token config) "bib_file_path" flag
  = mem flag ["-f"; "--bib-file-path"].
Proof. by_option_name flag. Qed.

Lemma run_parser_token token config flag :
  stores_in (run_parser token config) "token" flag = mem flag ["-t"; "--token"].
Proof. by_option_name flag. Qed.

Lemma run_parser_bib_string token config flag :
  stores_in (run_parser token config) "bib_string" flag
  = mem flag ["-s"; "--bib-string"].
Proof. by_option_name flag. Qed.

Lemma download_parser_file_path token flag :
  stores_in (download_parser token) "file_path" flag
  = mem flag ["-f"; "--file-path"].
Proof. by_option_name flag. Qed.

Lemma run_parser_exclusive token config :
  dict_get config "bib_file_path" VNone = VNone ->
  exclusive (run_parser token config) "bib_file_path" "bib_string"
  /\ exclusive (run_parser token config) "bib_string" "bib_file_path".
Proof.
  intros Hcfg. unfold exclusive, conflicts, run_parser. rewrite Hcfg. simpl.
  split; intros seen ->; simpl; by rewrite ?orb_true_r.
Qed.

(** Without a configured bib file path, a [run] command line that selects
    neither or both of [bib_file_path] and [bib_string] does not parse. *)
Lemma run_parser_rejects token config args :
  dict_get config "bib_file_path" VNone = VNone ->
  asks_help args = false ->
  supplies ["-f"; "--bib-file-path"] args = supplies ["-s"; "--bib-string"] args ->
  exists msg, parse_subcommand (run_parser token config) args = inl (ParserError msg).
Proof.
  intros Hcfg Hh Heq. unfold parse_subcommand.
  set (sp := run_parser token config).
  set (acc := {| seen := []; namespace := defaults sp; extras := false |}).
  assert (Hf := selects_supplies sp "bib_file_path" _ args
                  (run_parser_bib_file_path token config)).
  assert (Hs := selects_supplies sp "bib_string" _ args
                  (run_parser_bib_string token config)).
  destruct (supplies ["-s"; "--bib-string"] args) eqn:Hsup.
  - (* both *)
    destruct (run_parser_exclusive token config Hcfg) as [H12 H21].
    destruct (consume_exclusive sp _ _ args acc H12 H21 Hh) as [msg ->]; [congruence.. |].
    eauto.
  - (* neither *)
    destruct (consume sp args acc) as [e | r] eqn:Hcons.
    + destruct (consume_error _ _ _ _ Hh Hcons) as [msg ->]. eauto.
    + destruct (missing_required sp (seen r)); [eauto |].
      assert (Hgroup : missing_group sp (seen r) = true).
      { unfold missing_group, sp, run_parser. rewrite Hcfg. simpl.
        fold sp.
        rewrite (consume_seen sp "bib_file_path" _ _ _ Hcons).
        rewrite (consume_seen sp "bib_string" _ _ _ Hcons).
        simpl. by rewrite Hf, Hs, Heq. }
      rewrite Hgroup. eauto.
Qed.

(** A command line that leaves out a required option does not parse. *)
Lemma required_missing sp flags d names args :
  In (add_argument flags d str true) (actions sp) ->
  (forall flag, stores_in sp d flag = mem flag names) ->
  asks_help args = false ->
  supplies names args = false ->
  exists msg, parse_subcommand sp args = inl (ParserError msg).
Proof.
  intros Hin Hnames Hh Hsup. unfold parse_subcommand.
  set (acc := {| seen := []; namespace := defaults sp; extras := false |}).
  destruct (consume sp args acc) as [e | r] eqn:Hcons.
  - destruct (consume_error _ _ _ _ Hh Hcons) as [msg ->]. eauto.
  - assert (Hreq : missing_required sp (seen r) = true).
    { unfold missing_required. apply existsb_exists. eexists. split; [exact Hin |].
      simpl. by rewrite (consume_seen sp d _ _ _ Hcons), (selects_supplies sp d _ args Hnames),
                  Hsup. }
    rewrite Hreq. eauto.
Qed.

Lemma download_parser_rejects token args :
  asks_help args = false ->
  supplies ["-f"; "--file-path"] args = false ->
  exists msg, parse_subcommand (download_parser token) args = inl (ParserError msg).
Proof.
  apply (required_missing (download_parser token) ["-f"; "--file-path"] "file_path").
  - simpl. by left.
  - apply download_parser_file_path.
Qed.

Lemma run_parser_requires_token config args :
  asks_help args = false ->
  supplies ["-t"; "--token"] args = false ->
  exists msg, parse_subcommand (run_parser VNone config) args = inl (ParserError msg).
Proof.
  apply (required_missing (run_parser VNone config) ["-t"; "--token"] "token").
  - simpl. by left.
  - apply run_parser_token.
Qed.

(** ** The usage line of each subparser *)

Lemma run_parser_group token config :
  run_parser token config
  = run_parser (if is_None token then VNone else VStr "")
      (if is_None (dict_get config "bib_file_path" VNone) then ∅
       else {[ "bib_file_path" := VStr "" ]}).
Proof.
  unfold run_parser.
  by destruct (is_None token), (is_None (dict_get config "bib_file_path" VNone)).
Qed.

Lemma download_parser_required token :
  download_parser token = download_parser (if is_None token then VNone else VStr "").
Proof. unfold download_parser. by destruct (is_None token). Qed.

Ltac usage_by_width :=
  unfold usage_formats;
  match goal with
  | |- context [String.length (usage_line ?sp)] =>
      let n := eval vm_compute in (String.length (usage_line sp)) in
      change (String.length (usage_line sp)) with n
  end;
  match goal with
  | |- context [parts_rejoin ?text] =>
      let b := eval vm_compute in (parts_rejoin text) in
      change (parts_rejoin text) with b
  end;
  simpl String.length; rewrite ?orb_false_r, ?orb_true_r; try reflexivity.

(** With a stored token the usage line of [run] can always be formatted;
    without one, only when it need not be wrapped. *)
Lemma run_usage_formats cols token config :
  usage_formats cols (run_parser token config)
  = if is_None token then
      if is_None (dict_get config "bib_file_path" VNone)
      then (103 <=? cols)%nat else (101 <=? cols)%nat
    else true.
Proof.
  rewrite run_parser_group.
  destruct (is_None token), (is_None (dict_get config "bib_file_path" VNone));
    usage_by_width.
Qed.

(** The usage line of [download], which always holds the bare [-f], can be
    formatted only when it need not be wrapped. *)
Lemma download_usage_formats cols token :
  usage_formats cols (download_parser token)
  = if is_None token then (100 <=? cols)%nat else (101 <=? cols)%nat.
Proof.
  rewrite download_parser_required.
  destruct (is_None token); usage_by_width.
Qed.

Lemma setup_usage_formats cols : usage_formats cols setup_parser = true.
Proof. usage_by_width. Qed.

Lemma inspect_usage_formats cols : usage_formats cols inspect_parser = true.
Proof. usage_by_width. Qed.

Lemma clear_usage_formats cols : usage_formats cols clear_parser = true.
Proof. usage_by_width. Qed.

(** ** [main] *)

Section Main.

Variable run : RunArgs -> M unit.
Variable setup : gmap string value -> M unit.
Variable inspect : M unit.
Variable clear : M unit.

Lemma get_parser_eq st :
  get_parser st
  = (parser_built st,
     inr {| subparsers :=
              [ ("run", run_parser (stored_token (world st)) (config_file (world st)));
                ("set", setup_parser);
                ("inspect-config", inspect_parser);
                ("clear-config", clear_parser);
                ("download", download_parser (stored_token (world st))) ] |}).
Proof.
  unfold get_parser.
  rewrite (bind_eq _ _ _ _ _ (get_token_eq st)).
  rewrite (bind_eq _ _ _ _ _ (get_config_eq _)).
  by rewrite after_after, world_after.
Qed.

(** A command line that does not parse ends [main] with the parser's error,
    right after the parser was built. *)
Lemma main_parse_error argv st p e :
  get_parser st = (parser_built st, inr p) ->
  parse_args (columns (world st)) p argv = inl e ->
  main run setup inspect clear argv st = (parser_built st, inl e).
Proof.
  intros Hp He. unfold main.
  rewrite (bind_eq _ _ _ _ _ Hp).
  unfold ask_world, mbind, M_bind, lift_result.
  change (world (parser_built st)) with (world st). by rewrite He.
Qed.

(** What [main] does with a subcommand whose options are turned down by the
    subparser's own [error]. *)
Lemma main_subparser_error argv st name sp msg :
  subcommand argv = Some name ->
  lookup_subparser
    {| subparsers :=
         [ ("run", run_parser (stored_token (world st)) (config_file (world st)));
           ("set", setup_parser);
           ("inspect-config", inspect_parser);
           ("clear-config", clear_parser);
           ("download", download_parser (stored_token (world st))) ] |} name = Some sp ->
  parse_subcommand sp (supplied argv) = inl (ParserError msg) ->
  main run setup inspect clear argv st
  = (parser_built st,
     inl (if usage_formats (columns (world st)) sp then UsageError msg else AssertionError)).
Proof.
  intros Hsub Hsp Hmsg.
  eapply main_parse_error; [apply get_parser_eq |].
  unfold parse_args. by rewrite Hsub, Hsp, Hmsg.
Qed.

End Main.

(** C4, as stated, fails in its second half: with a bib file path stored in
    the configuration, [--bib-file-path] and [--bib-string] are accepted on
    the same command line, and [run] is entered with both. *)
Lemma bib_options_together_counterexample :
  let argv := {| subcommand := Some "run";
                 supplied := [("-f", "/tmp/other.bib");
                              ("-s", "@book{doe2021, year = 2021}")] |} in
  supplies ["-f"; "--bib-file-path"] (supplied argv) = true /\
  supplies ["-s"; "--bib-string"] (supplied argv) = true /\
  main stub_run stub_setup stub stub argv with_bib_file
  = (after with_bib_file
       [EGetToken; EGetConfig; EGetToken; EGetConfig;
        ERun {| run_token := VStr "secret_stored";
                run_database_id := VStr "db1";
                run_bib_string := VStr "@book{doe2021, year = 2021}";
                run_bib_file_path := VStr "/tmp/other.bib";
                run_save_to_bib_file := VBool true |}],
     inr tt).
Proof. repeat split. Qed.

(** C4, amended: when no bib file path is stored in the configuration, the
    command line does not ask for help, and the usage line of [run] can be
    printed (a token is stored, or the terminal has at least 103 columns), a
    [run] command line with neither [--bib-file-path] nor [--bib-string], or
    with both of them, is a usage error; [main] stops right after the parser
    has read keyring and configuration, before [run] is entered and before
    any network call. *)
Theorem run_destination_usage_error run setup inspect clear argv st :
  subcommand argv = Some "run" ->
  config_file (world st) !! "bib_file_path" = None ->
  asks_help (supplied argv) = false ->
  is_None (stored_token (world st)) = false \/ 103 <= columns (world st) ->
  (supplies ["-f"; "--bib-file-path"] (supplied argv) = false ->
   supplies ["-s"; "--bib-string"] (supplied argv) = false ->
   exists msg,
     main run setup inspect clear argv st
     = (after st [EGetToken; EGetConfig], inl (UsageError msg)))
  /\
  (supplies ["-f"; "--bib-file-path"] (supplied argv) = true ->
   supplies ["-s"; "--bib-string"] (supplied argv) = true ->
   exists msg,
     main run setup inspect clear argv st
     = (after st [EGetToken; EGetConfig], inl (UsageError msg))).
Proof.
  intros Hsub Hcfg Hhelp Hprint.
  assert (Hget : dict_get (config_file (world st)) "bib_file_path" VNone = VNone)
    by (by apply dict_get_None).
  assert (Husage : usage_formats (columns (world st))
                     (run_parser (stored_token (world st)) (config_file (world st)))
                   = true).
  { rewrite run_usage_formats, Hget.
    destruct Hprint as [-> | Hwide]; [done |].
    destruct (is_None (stored_token (world st))); [| done].
    change (is_None VNone) with true. cbv iota. by apply Nat.leb_le. }
  assert (Hrej : supplies ["-f"; "--bib-file-path"] (supplied argv)
                 = supplies ["-s"; "--bib-string"] (supplied argv) ->
                 exists msg,
                   main run setup inspect clear argv st
                   = (after st [EGetToken; EGetConfig], inl (UsageError msg))).
  { intros Heq.
    destruct (run_parser_rejects (stored_token (world st)) _ _ Hget Hhelp Heq)
      as [msg Hmsg].
    exists msg.
    rewrite (main_subparser_error run setup inspect clear argv st "run"
               (run_parser (stored_token (world st)) (config_file (world st))) msg
               Hsub eq_refl Hmsg).
    by rewrite Husage. }
  split; intros Hf Hs; apply Hrej; congruence.
Qed.

Lemma run_destination_usage_error_witness :
  (exists msg,
     main stub_run stub_setup stub stub
       {| subcommand := Some "run"; supplied := [("-db", "db2")] |} configured_narrow
     = (after configured_narrow [EGetToken; EGetConfig], inl (UsageError msg)))
  /\
  (exists msg,
     main stub_run stub_setup stub stub
       {| subcommand := Some "run";
          supplied := [("-f", "/tmp/other.bib"); ("-s", "@book{doe2021, year = 2021}")] |}
       configured_narrow
     = (after configured_narrow [EGetToken; EGetConfig], inl (UsageError msg))).
Proof.
  split.
  - destruct (run_destination_usage_error stub_run stub_setup stub stub
                {| subcommand := Some "run"; supplied := [("-db", "db2")] |}
                configured_narrow)
      as [Hneither _]; [reflexivity | reflexivity | reflexivity | left; reflexivity |].
    apply Hneither; reflexivity.
  - destruct (run_destination_usage_error stub_run stub_setup stub stub
                {| subcommand := Some "run";
                   supplied := [("-f", "/tmp/other.bib");
                                ("-s", "@book{doe2021, year = 2021}")] |}
                configured_narrow)
      as [_ Hboth]; [reflexivity | reflexivity | reflexivity | left; reflexivity |].
    apply Hboth; reflexivity.
Defined.

(** C9: the option [--file-path] of [download] is declared required, with an
    empty metavar.  On a terminal of fewer than 100 columns a [download]
    command line without it (and without help flag) does not end in a usage
    error: printing the usage line fails, and [main] ends with the
    [AssertionError] of the formatter, right after the parser was built. *)
Theorem download_without_file_path_crashes run setup inspect clear argv st :
  subcommand argv = Some "download" ->
  supplies ["-f"; "--file-path"] (supplied argv) = false ->
  asks_help (supplied argv) = false ->
  columns (world st) < 100 ->
  main run setup inspect clear argv st
  = (after st [EGetToken; EGetConfig], inl AssertionError).
Proof.
  intros Hsub Hsup Hhelp Hnarrow.
  destruct (download_parser_rejects (stored_token (world st)) _ Hhelp Hsup) as [msg Hmsg].
  rewrite (main_subparser_error run setup inspect clear argv st "download"
             (download_parser (stored_token (world st))) msg Hsub eq_refl Hmsg).
  rewrite download_usage_formats.
  assert (H100 : (100 <=? columns (world st))%nat = false) by (apply Nat.leb_gt; lia).
  assert (H101 : (101 <=? columns (world st))%nat = false) by (apply Nat.leb_gt; lia).
  by destruct (is_None (stored_token (world st))); rewrite ?H100, ?H101.
Qed.

Lemma download_without_file_path_crashes_witness :
  main stub_run stub_setup stub stub
    {| subcommand := Some "download"; supplied := [("-db", "db2")] |} configured_narrow
  = (after configured_narrow [EGetToken; EGetConfig], inl AssertionError).
Proof.
  apply (download_without_file_path_crashes stub_run stub_setup stub stub
           {| subcommand := Some "download"; supplied := [("-db", "db2")] |}
           configured_narrow); [reflexivity | reflexivity | reflexivity | simpl; lia].
Defined.

(** With the path given, the same command line downloads. *)
Example download_with_file_path :
  snd (main stub_run stub_setup stub stub
         {| subcommand := Some "download";
            supplied := [("-db", "db2"); ("--file-path", "out.bib")] |} with_bib_file)
  = inr tt.
Proof. reflexivity. Qed.

(** ** The reconciler *)

Module ReconcilerFacts.
Import Reconciler.

Lemma has_key_entry_for k (doc : BibFile) :
  has_key k doc = match entry_for k doc with Some _ => true | None => false end.
Proof.
  induction doc as [| e doc IH]; simpl; [done |].
  by destruct (k =? citation_key e)%string.
Qed.

Lemma entry_for_None k (doc : BibFile) :
  entry_for k doc = None <-> has_key k doc = false.
Proof. rewrite has_key_entry_for. by destruct (entry_for k doc). Qed.

Lemma has_key_elem_of k (doc : BibFile) : has_key k doc = true <-> k ∈ keys doc.
Proof.
  unfold has_key, keys. rewrite existsb_exists, list_elem_of_fmap. split.
  - intros (e & Hin & He). exists e. apply String.eqb_eq in He.
    split; [done |]. by apply list_elem_of_In.
  - intros (e & -> & Hin). exists e. split; [by apply list_elem_of_In |].
    apply String.eqb_refl.
Qed.

Lemma entry_for_app k (a b : BibFile) :
  entry_for k (a ++ b)
  = match entry_for k a with Some e => Some e | None => entry_for k b end.
Proof.
  induction a as [| e a IH]; simpl; [done |].
  by destruct (k =? citation_key e)%string.
Qed.

Lemma entry_for_Some k (doc : BibFile) e :
  entry_for k doc = Some e -> e ∈ doc /\ citation_key e = k.
Proof.
  intros H. apply find_some in H as [Hin Hk].
  split; [by apply list_elem_of_In |]. symmetry. by apply String.eqb_eq.
Qed.

(** Folding [add_entry] keeps the entry of every key the accumulator
    knows, and gives the other keys their first entry in the list. *)
Lemma entry_for_foldl k (l : list BibtexEntry) (acc : BibFile) :
  entry_for k (foldl add_entry acc l)
  = match entry_for k acc with Some e => Some e | None => entry_for k l end.
Proof.
  revert acc. induction l as [| a l IH]; intros acc; simpl.
  - by destruct (entry_for k acc).
  - rewrite IH. unfold add_entry.
    destruct (has_key (citation_key a) acc) eqn:Hk.
    + destruct (entry_for k acc) eqn:Hacc; [done |].
      destruct (String.eqb_spec k (citation_key a)) as [-> | _]; [| done].
      apply entry_for_None in Hacc. congruence.
    + rewrite entry_for_app. destruct (entry_for k acc); [done |]. simpl.
      by destruct (k =? citation_key a)%string.
Qed.

Lemma entry_for_merge k (existing : BibFile) new_entries :
  entry_for k (merge existing new_entries)
  = match entry_for k existing with
    | Some e => Some e
    | None => entry_for k new_entries
    end.
Proof.
  unfold merge, parse_existing. rewrite !entry_for_foldl. simpl.
  by destruct (entry_for k existing).
Qed.

Lemma has_key_foldl k (l : list BibtexEntry) (acc : BibFile) :
  has_key k (foldl add_entry acc l) = has_key k acc || has_key k l.
Proof.
  rewrite !has_key_entry_for, entry_for_foldl.
  by destruct (entry_for k acc).
Qed.

Lemma keys_app (a b : BibFile) : keys (a ++ b) = keys a ++ keys b.
Proof. unfold keys. by rewrite fmap_app. Qed.

Lemma add_entry_NoDup (mapping : BibFile) e :
  NoDup (keys mapping) -> NoDup (keys (add_entry mapping e)).
Proof.
  intros Hnd. unfold add_entry.
  destruct (has_key (citation_key e) mapping) eqn:Hk; [done |].
  rewrite keys_app. apply NoDup_app. split; [done |]. split.
  - intros k Hin Hk'. apply list_elem_of_singleton in Hk'. subst k.
    apply has_key_elem_of in Hin. congruence.
  - apply NoDup_singleton.
Qed.

Lemma foldl_add_entry_NoDup (l : list BibtexEntry) (acc : BibFile) :
  NoDup (keys acc) -> NoDup (keys (foldl add_entry acc l)).
Proof.
  revert acc. induction l as [| a l IH]; intros acc Hnd; simpl; [done |].
  by apply IH, add_entry_NoDup.
Qed.

(** The keys of a merged document are pairwise distinct. *)
Lemma merge_NoDup (existing : BibFile) new_entries :
  NoDup (keys (merge existing new_entries)).
Proof.
  unfold merge, parse_existing.
  apply foldl_add_entry_NoDup, foldl_add_entry_NoDup. constructor.
Qed.

Lemma entry_for_NoDup (doc : BibFile) e :
  NoDup (keys doc) -> e ∈ doc -> entry_for (citation_key e) doc = Some e.
Proof.
  induction doc as [| x doc IH]; intros Hnd Hin; [by apply elem_of_nil in Hin |].
  simpl in *. apply NoDup_cons in Hnd as [Hx Hnd].
  apply elem_of_cons in Hin as [-> | Hin]; [by rewrite String.eqb_refl |].
  destruct (String.eqb_spec (citation_key e) (citation_key x)) as [E | _]; [| by apply IH].
  exfalso. apply Hx. rewrite <- E. apply list_elem_of_fmap. eauto.
Qed.

(** A document without duplicate keys is its own ordered mapping. *)
Lemma foldl_add_entry_fresh (l : list BibtexEntry) (acc : BibFile) :
  NoDup (keys (acc ++ l)) -> foldl add_entry acc l = acc ++ l.
Proof.
  revert acc. induction l as [| a l IH]; intros acc Hnd; simpl.
  - by rewrite app_nil_r.
  - assert (Hk : has_key (citation_key a) acc = false).
    { apply not_true_is_false. intros Hk. apply has_key_elem_of in Hk.
      rewrite keys_app in Hnd. apply NoDup_app in Hnd as (_ & Hdisj & _).
      apply (Hdisj _ Hk). simpl. apply elem_of_cons. by left. }
    unfold add_entry at 2. rewrite Hk.
    rewrite IH; rewrite <- (assoc_L (++)); done.
Qed.

Lemma parse_existing_NoDup (doc : BibFile) :
  NoDup (keys doc) -> parse_existing doc = doc.
Proof. intros Hnd. unfold parse_existing. by rewrite foldl_add_entry_fresh. Qed.

(** Entries whose keys are all present are all skipped. *)
Lemma foldl_add_entry_skip (l : list BibtexEntry) (mapping : BibFile) :
  (forall e, e ∈ l -> has_key (citation_key e) mapping = true) ->
  foldl add_entry mapping l = mapping.
Proof.
  induction l as [| a l IH]; intros H; simpl; [done |].
  unfold add_entry at 2. rewrite H; [| apply elem_of_cons; by left].
  apply IH. intros e He. apply H, elem_of_cons. by right.
Qed.

Lemma has_key_self e (l : list BibtexEntry) :
  e ∈ l -> has_key (citation_key e) l = true.
Proof.
  intros He. apply has_key_elem_of, list_elem_of_fmap. eauto.
Qed.

(** The scenario of the spec: the stored smith2020 is kept, doe2021 is
    appended. *)
Example merge_scenario :
  merge [smith2020] [smith2020_different; doe2021] = [smith2020; doe2021].
Proof. reflexivity. Qed.

(** C5 (skip on conflict): when the key [k] occurs in the existing document
    and among the new entries, the entry for [k] in the merged document is
    the existing document's entry for [k]; it is the only entry with that
    key, and every new entry with key [k] that differs from it is left
    out. *)
Theorem merge_skip_on_conflict (existing : BibFile) (new_entries : list BibtexEntry) k :
  has_key k existing = true ->
  has_key k new_entries = true ->
  exists old,
    entry_for k existing = Some old /\
    entry_for k (merge existing new_entries) = Some old /\
    (forall e, e ∈ merge existing new_entries -> citation_key e = k -> e = old) /\
    (forall new, new ∈ new_entries -> citation_key new = k -> new <> old ->
                 new ∉ merge existing new_entries).
Proof.
  intros HF _.
  rewrite has_key_entry_for in HF.
  destruct (entry_for k existing) as [old |] eqn:Hold; [| discriminate].
  exists old.
  assert (Hm : entry_for k (merge existing new_entries) = Some old)
    by (by rewrite entry_for_merge, Hold).
  assert (Huniq : forall e, e ∈ merge existing new_entries -> citation_key e = k -> e = old).
  { intros e He Hk.
    pose proof (entry_for_NoDup _ e (merge_NoDup existing new_entries) He) as H.
    rewrite Hk in H. congruence. }
  repeat split; [done.. |].
  intros new _ Hk Hne Hin. apply Hne. by apply Huniq.
Qed.

Lemma merge_skip_on_conflict_witness :
  exists old,
    entry_for "smith2020" [smith2020] = Some old /\
    entry_for "smith2020" (merge [smith2020] [smith2020_different; doe2021]) = Some old /\
    (forall e, e ∈ merge [smith2020] [smith2020_different; doe2021] ->
               citation_key e = "smith2020" -> e = old) /\
    (forall new, new ∈ [smith2020_different; doe2021] ->
                 citation_key new = "smith2020" -> new <> old ->
                 new ∉ merge [smith2020] [smith2020_different; doe2021]).
Proof.
  apply (merge_skip_on_conflict [smith2020] [smith2020_different; doe2021] "smith2020");
    reflexivity.
Defined.

(** C6 (idempotence): merging the same new entries into an already merged
    document gives that document again. *)
Theorem merge_idempotent (existing : BibFile) (new_entries : list BibtexEntry) :
  merge (merge existing new_entries) new_entries = merge existing new_entries.
Proof.
  set (doc := merge existing new_entries).
  unfold merge at 1.
  rewrite (parse_existing_NoDup doc (merge_NoDup existing new_entries)).
  apply foldl_add_entry_skip. intros e He.
  unfold doc, merge. rewrite has_key_foldl, (has_key_self e new_entries He).
  apply orb_true_r.
Qed.

(** With nothing to add, a document without duplicate keys is returned as
    it is. *)
Lemma merge_nil (existing : BibFile) :
  NoDup (keys existing) -> merge existing [] = existing.
Proof. intros Hnd. unfold merge. simpl. by apply parse_existing_NoDup. Qed.

End ReconcilerFacts.


(** * Further properties of the dispatcher *)

(** ** Resolution of the other parameters *)

Lemma download_resolved file_path token database_id st :
  is_None (resolved_token token st) = false ->
  is_None (resolved_database_id database_id st) = false ->
  let tok := resolved_token token st in
  let db := resolved_database_id database_id st in
  sanitize_arguments_and_download file_path token database_id st
  = match notion (world st) tok db with
    | inl e => (after st [EGetToken; EGetConfig; EFetch tok db], inl e)
    | inr entries =>
        ({| world := with_file (world st) file_path (join LFLF entries);
            trace := trace st ++ [EGetToken; EGetConfig; EFetch tok db;
                                  EPrint entries; EWrite (join LFLF entries) file_path] |},
         inr tt)
    end.
Proof.
  intros Htok Hdb tok db. unfold sanitize_arguments_and_download.
  rewrite (bind_eq _ _ _ _ _ (get_token_eq st)).
  unfold resolved_token in Htok. rewrite Htok.
  rewrite (bind_eq _ _ _ _ _ (get_config_eq _)). rewrite world_after.
  unfold resolved_database_id in Hdb. rewrite Hdb.
  unfold get_bibtex_string_list_from_database, print, ask_world, lift_result, log.
  unfold mbind, M_bind, write_to_file. simpl.
  fold (resolved_token token st). fold (resolved_database_id database_id st).
  fold tok. fold db.
  destruct (notion (world st) tok db) as [e | entries].
  - unfold after. simpl. by rewrite <- !(assoc_L (++)).
  - unfold with_file. simpl. by rewrite <- !(assoc_L (++)).
Qed.

(** X1: an explicitly passed database id is the one used, whatever the
    configuration stores: [run] is entered with it, and [download] fetches
    from it. *)
Theorem database_id_explicit_wins
    run file_path token database_id bib_file_path bib_string save st :
  is_None (resolved_token token st) = false ->
  is_None database_id = false ->
  (exists args,
     run_database_id args = database_id /\
     sanitize_arguments_and_run run token database_id bib_file_path bib_string save st
     = run args (after st [EGetToken; EGetConfig; ERun args]))
  /\
  (exists rest,
     trace (fst (sanitize_arguments_and_download file_path token database_id st))
     = trace st ++ [EGetToken; EGetConfig; EFetch (resolved_token token st) database_id]
                ++ rest).
Proof.
  intros Htok Hdb.
  assert (Hres : resolved_database_id database_id st = database_id)
    by (by apply fallback_explicit).
  split.
  - eexists; split; [| apply run_resolved; [done | by rewrite Hres]].
    simpl. exact Hres.
  - rewrite download_resolved; [| done | by rewrite Hres]. rewrite Hres.
    destruct (notion (world st) (resolved_token token st) database_id) as [e | entries].
    + by exists [].
    + by eexists [_; _].
Qed.

Lemma database_id_explicit_wins_witness :
  (exists args,
     run_database_id args = VStr "db_passed" /\
     sanitize_arguments_and_run stub_run VNone (VStr "db_passed") VNone VNone VNone configured
     = stub_run args (after configured [EGetToken; EGetConfig; ERun args]))
  /\
  (exists rest,
     trace (fst (sanitize_arguments_and_download "out.bib" VNone (VStr "db_passed") configured))
     = trace configured
       ++ [EGetToken; EGetConfig; EFetch (resolved_token VNone configured) (VStr "db_passed")]
       ++ rest).
Proof.
  apply (database_id_explicit_wins stub_run "out.bib" VNone (VStr "db_passed")
           VNone VNone VNone configured); reflexivity.
Defined.

(** X2: once token and database id are resolved, a missing bib file path is
    no error: [run] is entered with the explicit [bib_file_path] when one is
    given, else with the stored one, else with [None]; [bib_string] is
    passed on as it is. *)
Theorem bib_file_path_resolution
    run token database_id bib_file_path bib_string save st :
  is_None (resolved_token token st) = false ->
  is_None (resolved_database_id database_id st) = false ->
  exists args,
    sanitize_arguments_and_run run token database_id bib_file_path bib_string save st
    = run args (after st [EGetToken; EGetConfig; ERun args]) /\
    run_bib_string args = bib_string /\
    (is_None bib_file_path = false -> run_bib_file_path args = bib_file_path) /\
    (bib_file_path = VNone ->
     forall v, config_file (world st) !! "bib_file_path" = Some v ->
               run_bib_file_path args = v) /\
    (bib_file_path = VNone ->
     config_file (world st) !! "bib_file_path" = None ->
     run_bib_file_path args = VNone).
Proof.
  intros Htok Hdb. eexists. split; [by apply run_resolved |]. simpl.
  split; [done |]. split; [| split].
  - apply fallback_explicit.
  - intros -> v Hv. by rewrite fallback_None, (dict_get_Some _ _ _ _ Hv).
  - intros -> Hv. by rewrite fallback_None, (dict_get_None _ _ _ Hv).
Qed.

Lemma bib_file_path_resolution_witness :
  exists args,
    sanitize_arguments_and_run stub_run VNone VNone VNone VNone VNone with_bib_file
    = stub_run args (after with_bib_file [EGetToken; EGetConfig; ERun args]) /\
    run_bib_file_path args = VStr "/home/u/refs.bib".
Proof.
  destruct (bib_file_path_resolution stub_run VNone VNone VNone VNone VNone with_bib_file)
    as (args & Hrun & _ & _ & Hstored & _); [reflexivity | reflexivity |].
  exists args. split; [exact Hrun |].
  apply Hstored; reflexivity.
Defined.

(** X3: when the remote client fails, [download] ends with that very error
    right after the fetch: nothing is printed, nothing is written, and the
    world is as before. *)
Theorem download_remote_failure file_path token database_id st e :
  is_None (resolved_token token st) = false ->
  is_None (resolved_database_id database_id st) = false ->
  notion (world st) (resolved_token token st) (resolved_database_id database_id st)
  = inl e ->
  sanitize_arguments_and_download file_path token database_id st
  = (after st [EGetToken; EGetConfig;
               EFetch (resolved_token token st) (resolved_database_id database_id st)],
     inl e).
Proof.
  intros Htok Hdb Hfetch. rewrite download_resolved by done. simpl.
  by rewrite Hfetch.
Qed.

Lemma download_remote_failure_witness :
  sanitize_arguments_and_download "out.bib" VNone VNone remote_down
  = (after remote_down
       [EGetToken; EGetConfig;
        EFetch (resolved_token VNone remote_down) (resolved_database_id VNone remote_down)],
     inl (RemoteError "unauthorized")).
Proof.
  apply (download_remote_failure "out.bib" VNone VNone remote_down
           (RemoteError "unauthorized")); reflexivity.
Defined.

(** X4: whatever its outcome, [download] leaves the keyring, the
    configuration, the remote database and every file other than
    [file_path] as they were, and only extends the history of events. *)
Theorem download_frame file_path token database_id st :
  let st' := fst (sanitize_arguments_and_download file_path token database_id st) in
  keyring (world st') = keyring (world st) /\
  config_file (world st') = config_file (world st) /\
  notion (world st') = notion (world st) /\
  (forall other, other <> file_path ->
                 files (world st') !! other = files (world st) !! other) /\
  exists evs, trace st' = trace st ++ evs.
Proof.
  destruct (is_None (resolved_token token st)) eqn:Htok.
  { rewrite download_token_unresolved by done. simpl. repeat split; eauto. }
  destruct (is_None (resolved_database_id database_id st)) eqn:Hdb.
  { rewrite download_database_id_unresolved by done. simpl. repeat split; eauto. }
  rewrite download_resolved by done. simpl.
  destruct (notion (world st) _ _) as [e | entries]; simpl.
  - repeat split; eauto.
  - repeat split; eauto.
    intros other Hne. by rewrite lookup_insert_ne.
Qed.

(** ** The text written by [download] *)

Lemma contains_unfold needle hay :
  contains needle hay
  = String.prefix needle hay
    || match hay with
       | EmptyString => false
       | String _ hay' => contains needle hay'
       end.
Proof. by destruct hay. Qed.

Lemma prefix_append s t : String.prefix s (s +:+ t) = true.
Proof.
  induction s as [| c s IH]; simpl; [by destruct t |].
  by destruct (ascii_dec c c).
Qed.

Lemma contains_here needle t : contains needle (needle +:+ t) = true.
Proof. by rewrite contains_unfold, prefix_append. Qed.

Lemma contains_self needle : contains needle needle = true.
Proof.
  rewrite contains_unfold.
  assert (H : String.prefix needle needle = true).
  { induction needle as [| c s IH]; simpl; [done |]. by destruct (ascii_dec c c). }
  by rewrite H.
Qed.

Lemma contains_skip needle a t :
  contains needle t = true -> contains needle (a +:+ t) = true.
Proof.
  intros H. induction a as [| c a IH]; simpl; [done |].
  by rewrite IH, orb_true_r.
Qed.

(** Every joined string occurs in the result of [join]. *)
Lemma contains_join sep e l : In e l -> contains e (join sep l) = true.
Proof.
  induction l as [| x rest IH]; intros Hin; [done |].
  destruct rest as [| y rest].
  - destruct Hin as [-> | []]. apply contains_self.
  - rewrite join_two. destruct Hin as [-> | Hin].
    + apply contains_here.
    + apply contains_skip, contains_skip. by apply IH.
Qed.

(** X5: after a [download] that returns normally, each fetched entry occurs
    as it was fetched in the text of the file written. *)
Theorem download_file_contains_entries file_path token database_id st st' entries e :
  sanitize_arguments_and_download file_path token database_id st = (st', inr tt) ->
  notion (world st) (resolved_token token st) (resolved_database_id database_id st)
  = inr entries ->
  In e entries ->
  exists content,
    files (world st') !! file_path = Some content /\ contains e content = true.
Proof.
  intros Hrun Hfetch Hin.
  destruct (is_None (resolved_token token st)) eqn:Htok.
  { by rewrite download_token_unresolved in Hrun. }
  destruct (is_None (resolved_database_id database_id st)) eqn:Hdb.
  { by rewrite download_database_id_unresolved in Hrun. }
  rewrite download_resolved in Hrun by done. simpl in Hrun.
  rewrite Hfetch in Hrun. injection Hrun as <-. simpl.
  exists (join LFLF entries). split; [by rewrite lookup_insert_eq |].
  by apply contains_join.
Qed.

Lemma download_file_contains_entries_witness :
  exists content,
    files (world (fst (sanitize_arguments_and_download "out.bib" VNone VNone configured)))
      !! "out.bib" = Some content /\
    contains "@book{doe2021, year = 2021}" content = true.
Proof.
  apply (download_file_contains_entries "out.bib" VNone VNone configured _
           ["@article{smith2020, year = 2020}"; "@book{doe2021, year = 2021}"]).
  - reflexivity.
  - reflexivity.
  - simpl. right. left. reflexivity.
Defined.

(** ** What a successful parse leaves in the namespace *)

Section Namespace.

Variable sp : Subparser.

Lemma consume_namespace d args acc r :
  consume sp args acc = inr r ->
  namespace r !! d
  = match parsed_value sp d args with
    | Some v => Some v
    | None => namespace acc !! d
    end.
Proof.
  revert acc. induction args as [| [flag raw] rest IH]; intros acc H; simpl in H.
  - by injection H as <-.
  - destruct (is_help sp flag); [discriminate |].
    simpl. destruct (find_action sp flag) as [a |].
    + destruct (type a raw) as [v |] eqn:Hv; [| discriminate].
      destruct (conflicts sp (dest a) (seen acc)); [discriminate |].
      rewrite (IH _ H). simpl.
      destruct (parsed_value sp d rest); [done |].
      destruct (String.eqb_spec d (dest a)) as [-> | Hne].
      * by rewrite lookup_insert_eq.
      * by rewrite lookup_insert_ne.
    + rewrite (IH _ H). simpl. by destruct (parsed_value sp d rest).
Qed.

Lemma consume_extras args acc r :
  consume sp args acc = inr r ->
  extras r = extras acc || negb (recognised sp args).
Proof.
  revert acc. induction args as [| [flag raw] rest IH]; intros acc H; simpl in H.
  - injection H as <-. simpl. by rewrite orb_false_r.
  - destruct (is_help sp flag); [discriminate |].
    simpl. destruct (find_action sp flag) as [a |].
    + destruct (type a raw) as [v |]; [| discriminate].
      destruct (conflicts sp (dest a) (seen acc)); [discriminate |].
      by rewrite (IH _ H).
    + rewrite (IH _ H). simpl. by rewrite orb_true_r.
Qed.

Lemma defaults_lookup d :
  defaults sp !! d = default <$> List.find (fun a => String.eqb d (dest a)) (actions sp).
Proof.
  unfold defaults. induction (actions sp) as [| a l IH]; simpl; [done |].
  destruct (String.eqb_spec d (dest a)) as [-> | Hne].
  - by rewrite lookup_insert_eq.
  - by rewrite lookup_insert_ne.
Qed.

Lemma find_action_In flag a : find_action sp flag = Some a -> In a (actions sp).
Proof. intros H. by apply find_some in H as [H _]. Qed.

Lemma parsed_value_none d args :
  selects sp d args = false -> parsed_value sp d args = None.
Proof.
  induction args as [| [flag raw] rest IH]; [done |].
  unfold selects. simpl. fold (selects sp d rest). unfold stores_in.
  intros H. apply orb_false_elim in H as [Hflag Hrest].
  rewrite (IH Hrest).
  destruct (find_action sp flag) as [a |]; [| done]. by rewrite Hflag.
Qed.

Lemma parsed_value_str d args v :
  all_str sp ->
  parsed_value sp d args = Some v -> exists raw, v = VStr raw.
Proof.
  intros Hstr. induction args as [| [flag raw] rest IH]; [done |]. simpl.
  destruct (parsed_value sp d rest) as [v' |]; [intros [= <-]; by apply IH |].
  destruct (find_action sp flag) as [a |] eqn:Ha; [| done].
  destruct (d =? dest a)%string; [| done].
  rewrite (Hstr a (find_action_In _ _ Ha)). intros [= <-]. eauto.
Qed.

Lemma selects_parsed_value d args :
  all_str sp ->
  selects sp d args = true -> exists raw, parsed_value sp d args = Some (VStr raw).
Proof.
  intros Hstr. induction args as [| [flag raw] rest IH]; [done |].
  unfold selects. simpl. fold (selects sp d rest). unfold stores_in.
  intros H.
  destruct (parsed_value sp d rest) as [v' |] eqn:Hrest.
  - destruct (parsed_value_str d rest v' Hstr Hrest) as [raw' ->]. eauto.
  - destruct (find_action sp flag) as [a |] eqn:Ha.
    + destruct (d =? dest a)%string.
      * rewrite (Hstr a (find_action_In _ _ Ha)). eauto.
      * simpl in H. destruct (IH H) as [raw' Hraw']. congruence.
    + simpl in H. destruct (IH H) as [raw' Hraw']. congruence.
Qed.


Lemma parse_subcommand_inr args ns :
  parse_subcommand sp args = inr ns ->
  exists r,
    consume sp args {| seen := []; namespace := defaults sp; extras := false |} = inr r /\
    missing_required sp (seen r) = false /\
    missing_group sp (seen r) = false /\
    extras r = false /\
    ns = namespace r.
Proof.
  unfold parse_subcommand.
  destruct (consume sp args _) as [e | r]; [done |].
  destruct (missing_required sp (seen r)) eqn:Hreq; [done |].
  destruct (missing_group sp (seen r)) eqn:Hgrp; [done |].
  destruct (extras r) eqn:Hext; [done |].
  intros [= <-]. by exists r.
Qed.

Lemma parse_subcommand_error args e :
  asks_help args = false ->
  parse_subcommand sp args = inl e -> e = Leftover \/ exists msg, e = ParserError msg.
Proof.
  intros Hh. unfold parse_subcommand.
  destruct (consume sp args _) as [e' | r] eqn:Hcons.
  - intros [= <-]. right. by eapply consume_error.
  - destruct (missing_required sp (seen r)); [intros [= <-]; eauto |].
    destruct (missing_group sp (seen r)); [intros [= <-]; eauto |].
    destruct (extras r); [intros [= <-]; eauto | done].
Qed.

(** The namespace of a successful parse: under each destination, the value
    of the last option stored there, else the default. *)
Lemma parse_subcommand_value d args ns :
  parse_subcommand sp args = inr ns ->
  ns !! d
  = match parsed_value sp d args with
    | Some v => Some v
    | None => defaults sp !! d
    end.
Proof.
  intros H. apply parse_subcommand_inr in H as (r & Hcons & _ & _ & _ & ->).
  by rewrite (consume_namespace d _ _ _ Hcons).
Qed.

End Namespace.

Lemma supplies_nil args : supplies [] args = false.
Proof. unfold supplies. by induction args. Qed.

Lemma kwargs_lookup (ns : gmap string value) name d :
  d <> "mode" ->
  dict_get (delete "mode" (<["mode" := VStr name]> ns)) d VNone = dict_get ns d VNone.
Proof.
  intros Hne. unfold dict_get.
  by rewrite lookup_delete_ne, lookup_insert_ne.
Qed.

Lemma parsed_kwarg sp d args ns :
  (forall a, In a (actions sp) -> default a = VNone) ->
  parse_subcommand sp args = inr ns ->
  dict_get ns d VNone = cli_value sp d args.
Proof.
  intros Hdef H. unfold dict_get, cli_value.
  rewrite (parse_subcommand_value sp d _ _ H), defaults_lookup.
  destruct (parsed_value sp d args); [done |].
  destruct (find _ (actions sp)) as [a |] eqn:Ha; simpl; [| done].
  apply find_some in Ha as [Ha _]. by apply Hdef.
Qed.

Lemma parses_inr sp args :
  parses sp args = true -> exists ns, parse_subcommand sp args = inr ns.
Proof. unfold parses. destruct (parse_subcommand sp args); [done | eauto]. Qed.

Ltac by_action H :=
  simpl in H;
  repeat (destruct H as [<- | H]; [reflexivity |]);
  destruct H.

Lemma run_parser_all_str token config : all_str (run_parser token config).
Proof. intros a H. by_action H. Qed.

Lemma download_parser_all_str token : all_str (download_parser token).
Proof. intros a H. by_action H. Qed.

Lemma run_parser_defaults token config a :
  In a (actions (run_parser token config)) -> default a = VNone.
Proof. intros H. by_action H. Qed.

Lemma download_parser_defaults token a :
  In a (actions (download_parser token)) -> default a = VNone.
Proof. intros H. by_action H. Qed.

Lemma setup_parser_defaults a : In a (actions setup_parser) -> default a = VNone.
Proof. intros H. by_action H. Qed.

Lemma run_parser_save token config flag :
  stores_in (run_parser token config) "save" flag = mem flag [].
Proof. by_option_name flag. Qed.

Lemma download_parser_token token flag :
  stores_in (download_parser token) "token" flag = mem flag ["-t"; "--token"].
Proof. by_option_name flag. Qed.

(** A required option of type [str] has been seen by a successful parse,
    which holds its text. *)
Lemma required_supplied sp flags d args ns :
  all_str sp ->
  In (add_argument flags d str true) (actions sp) ->
  parse_subcommand sp args = inr ns ->
  exists raw, parsed_value sp d args = Some (VStr raw).
Proof.
  intros Hstr Hin H.
  apply parse_subcommand_inr in H as (r & Hcons & Hreq & _).
  apply selects_parsed_value; [done |].
  unfold missing_required in Hreq.
  destruct (selects sp d args) eqn:Hsel; [done |].
  exfalso.
  assert (Hex : existsb (fun a => required a && negb (mem (dest a) (seen r))) (actions sp)
                = true).
  { apply existsb_exists. eexists. split; [exact Hin |]. simpl.
    by rewrite (consume_seen sp d _ _ _ Hcons), Hsel. }
  congruence.
Qed.

(** When [--token] is required exactly if no token is stored, the token
    parsed or else the stored one is never [None]. *)
Lemma parsed_token_resolved sp args ns w :
  all_str sp ->
  In (add_argument ["-t"; "--token"] "token" str (is_None (stored_token w))) (actions sp) ->
  parse_subcommand sp args = inr ns ->
  is_None (fallback (cli_value sp "token" args) (stored_token w)) = false.
Proof.
  intros Hstr Hin Hns. unfold fallback.
  destruct (is_None (cli_value sp "token" args)) eqn:Hcli; [| done].
  destruct (is_None (stored_token w)) eqn:Htok; [| done].
  destruct (required_supplied sp _ _ _ ns Hstr Hin Hns) as [raw Hraw].
  unfold cli_value in Hcli. by rewrite Hraw in Hcli.
Qed.

Lemma parse_subcommand_recognised sp args ns :
  parse_subcommand sp args = inr ns -> recognised sp args = true.
Proof.
  intros H. apply parse_subcommand_inr in H as (r & Hcons & _ & _ & Hext & _).
  rewrite (consume_extras sp _ _ _ Hcons) in Hext. simpl in Hext.
  by destruct (recognised sp args).
Qed.

Lemma stores_in_dest sp d flag :
  stores_in sp d flag = true -> In d (List.map dest (actions sp)).
Proof.
  unfold stores_in. destruct (find_action sp flag) as [a |] eqn:Ha; [| done].
  intros Hd. apply String.eqb_eq in Hd as ->.
  apply in_map. by eapply find_action_In.
Qed.

Lemma parsed_value_dest sp d args v :
  parsed_value sp d args = Some v -> In d (List.map dest (actions sp)).
Proof.
  induction args as [| [flag raw] rest IH]; [done |]. simpl.
  destruct (parsed_value sp d rest) as [v' |]; [intros [= <-]; by apply IH |].
  destruct (find_action sp flag) as [a |] eqn:Ha; [| done].
  destruct (String.eqb_spec d (dest a)) as [-> | _]; [| done].
  intros _. apply in_map. by eapply find_action_In.
Qed.

Lemma strtobool_bool raw v : strtobool raw = Some v -> exists b, v = VBool b.
Proof.
  unfold strtobool.
  destruct (mem (lower raw) _); [intros [= <-]; eauto |].
  destruct (mem (lower raw) _); [intros [= <-]; eauto | done].
Qed.

(** [set --save] stores a boolean. *)
Lemma setup_parser_save args v :
  parsed_value setup_parser "save" args = Some v -> exists b, v = VBool b.
Proof.
  induction args as [| [flag raw] rest IH]; [done |]. simpl.
  destruct (parsed_value setup_parser "save" rest) as [v' |];
    [intros [= <-]; by apply IH |].
  destruct (find_action setup_parser flag) as [a |] eqn:Ha; [| done].
  apply find_action_In in Ha. simpl in Ha.
  destruct Ha as [<- | [<- | [<- | [<- | []]]]]; simpl; try done.
  apply strtobool_bool.
Qed.

Lemma download_parser_requires_token args :
  asks_help args = false ->
  supplies ["-t"; "--token"] args = false ->
  exists msg, parse_subcommand (download_parser VNone) args = inl (ParserError msg).
Proof.
  apply (required_missing (download_parser VNone) ["-t"; "--token"] "token").
  - simpl. right. by left.
  - apply download_parser_token.
Qed.




(** Decides the comparisons of [mode] with the names of the subcommands. *)
Ltac select_mode :=
  repeat match goal with
         | |- context [py_eq (VStr ?a) (VStr ?b)] =>
             let r := eval vm_compute in (py_eq (VStr a) (VStr b)) in
             change (py_eq (VStr a) (VStr b)) with r
         end;
  cbv iota.

(** ** [main], subcommand by subcommand *)

Section Dispatch.

Variable run : RunArgs -> M unit.
Variable setup : gmap string value -> M unit.
Variable inspect : M unit.
Variable clear : M unit.

(** The parser's verdict, as [main] obtains it. *)
Lemma main_parse_ok argv st name sp ns :
  subcommand argv = Some name ->
  lookup_subparser (built_parser st) name = Some sp ->
  parse_subcommand sp (supplied argv) = inr ns ->
  parse_args (columns (world st)) (built_parser st) argv
  = inr (<["mode" := VStr name]> ns).
Proof.
  intros Hsub Hsp Hns. unfold parse_args. by rewrite Hsub, Hsp, Hns.
Qed.

Lemma main_after_parse argv st arguments :
  parse_args (columns (world st)) (built_parser st) argv = inr arguments ->
  bare argv = false ->
  main run setup inspect clear argv st
  = (let mode := dict_get arguments "mode" VNone in
     let kwargs := delete "mode" arguments in
     let kw name := dict_get kwargs name VNone in
     if py_eq mode (VStr "run") then
       sanitize_arguments_and_run run
         (kw "token") (kw "database_id") (kw "bib_file_path") (kw "bib_string") (kw "save")
     else if py_eq mode (VStr "set") then
       log (ESetup kwargs) ;; setup kwargs
     else if py_eq mode (VStr "inspect-config") then
       log EInspect ;; inspect
     else if py_eq mode (VStr "clear-config") then
       log EClear ;; clear
     else if py_eq mode (VStr "download") then
       match kwargs !! "file_path" with
       | Some (VStr file_path) =>
           sanitize_arguments_and_download file_path (kw "token") (kw "database_id")
       | _ => raise (TypeError "missing or ill-typed argument: file_path")
       end
     else
       raise NotImplementedError) (parser_built st).
Proof.
  intros Hparse Hbare. unfold main.
  rewrite (bind_eq _ _ _ _ _ (get_parser_eq st)).
  unfold ask_world, mbind, M_bind, lift_result.
  change (world (parser_built st)) with (world st).
  fold (built_parser st). by rewrite Hparse, Hbare.
Qed.

Lemma mode_lookup (ns : gmap string value) name :
  dict_get (<["mode" := VStr name]> ns) "mode" VNone = VStr name.
Proof. unfold dict_get. by rewrite lookup_insert_eq. Qed.

Lemma bare_subcommand argv name : subcommand argv = Some name -> bare argv = false.
Proof. unfold bare. by intros ->. Qed.

(** X6: a [run] command line that parses makes [main] call
    [sanitize_arguments_and_run] with the values given on the command line
    ([None] for each option left out) and with no [save] argument.  The token
    so passed or else the stored one is never missing, so that through [main]
    the [ConfigError] about the token cannot occur; and when the database id
    is resolved too, [run] is entered with the save flag that the
    configuration alone decides. *)
Theorem main_run_dispatch argv st :
  subcommand argv = Some "run" ->
  let sp := run_parser (stored_token (world st)) (config_file (world st)) in
  let cli d := cli_value sp d (supplied argv) in
  parses sp (supplied argv) = true ->
  main run setup inspect clear argv st
  = sanitize_arguments_and_run run
      (cli "token") (cli "database_id") (cli "bib_file_path") (cli "bib_string") VNone
      (parser_built st)
  /\ is_None (resolved_token (cli "token") (parser_built st)) = false
  /\ (is_None (resolved_database_id (cli "database_id") (parser_built st)) = false ->
      exists args,
        main run setup inspect clear argv st
        = run args (after st [EGetToken; EGetConfig; EGetToken; EGetConfig; ERun args]) /\
        run_token args = fallback (cli "token") (stored_token (world st)) /\
        run_save_to_bib_file args = configured_save (config_file (world st))).
Proof.
  intros Hsub sp cli Hparses.
  destruct (parses_inr _ _ Hparses) as [ns Hns].
  assert (Hmain : main run setup inspect clear argv st
                  = sanitize_arguments_and_run run
                      (cli "token") (cli "database_id") (cli "bib_file_path")
                      (cli "bib_string") VNone (parser_built st)).
  { rewrite (main_after_parse argv st _
               (main_parse_ok argv st "run" sp ns Hsub eq_refl Hns)
               (bare_subcommand _ _ Hsub)).
    cbv zeta. rewrite mode_lookup. select_mode.
    rewrite !kwargs_lookup by done.
    rewrite !(parsed_kwarg sp _ _ ns (run_parser_defaults _ _) Hns).
    fold (cli "token"). fold (cli "database_id").
    fold (cli "bib_file_path"). fold (cli "bib_string").
    replace (cli_value sp "save" (supplied argv)) with VNone; [done |].
    unfold cli_value. rewrite parsed_value_none; [done |].
    by rewrite (selects_supplies sp "save" [] _ (run_parser_save _ _)), supplies_nil. }
  assert (Htok : is_None (resolved_token (cli "token") (parser_built st)) = false).
  { unfold resolved_token, parser_built. rewrite world_after.
    apply (parsed_token_resolved sp _ ns); [apply run_parser_all_str | | done].
    simpl. by left. }
  split; [done |]. split; [done |].
  intros Hdb. eexists. split; [| split].
  - rewrite Hmain, (run_resolved run _ _ _ _ _ _ Htok Hdb).
    unfold parser_built. by rewrite after_after.
  - reflexivity.
  - reflexivity.
Qed.

(** X7: a [download] command line that parses carries a file path, and makes
    [main] call [sanitize_arguments_and_download] with it and with the token
    and database id given on the command line; the token so passed or else
    the stored one is never missing. *)
Theorem main_download_dispatch argv st :
  subcommand argv = Some "download" ->
  let sp := download_parser (stored_token (world st)) in
  let cli d := cli_value sp d (supplied argv) in
  parses sp (supplied argv) = true ->
  exists file_path,
    cli "file_path" = VStr file_path /\
    main run setup inspect clear argv st
    = sanitize_arguments_and_download file_path (cli "token") (cli "database_id")
        (parser_built st) /\
    is_None (resolved_token (cli "token") (parser_built st)) = false.
Proof.
  intros Hsub sp cli Hparses.
  destruct (parses_inr _ _ Hparses) as [ns Hns].
  assert (Hin : In (add_argument ["-f"; "--file-path"] "file_path" str true) (actions sp))
    by (simpl; by left).
  destruct (required_supplied sp _ _ _ ns (download_parser_all_str _) Hin Hns)
    as [file_path Hpath].
  exists file_path.
  assert (Hcli : cli "file_path" = VStr file_path).
  { unfold cli, cli_value. by rewrite Hpath. }
  split; [done |]. split.
  - rewrite (main_after_parse argv st _
               (main_parse_ok argv st "download" sp ns Hsub eq_refl Hns)
               (bare_subcommand _ _ Hsub)).
    cbv zeta. rewrite mode_lookup. select_mode.
    rewrite !kwargs_lookup by done.
    rewrite !(parsed_kwarg sp _ _ ns (download_parser_defaults _) Hns).
    rewrite lookup_delete_ne, lookup_insert_ne by done.
    rewrite (parse_subcommand_value sp "file_path" _ _ Hns), Hpath.
    done.
  - unfold resolved_token, parser_built. rewrite world_after.
    apply (parsed_token_resolved sp _ ns); [apply download_parser_all_str | | done].
    simpl. right. by left.
Qed.

(** X8: a [set] command line that parses makes [main] call [setup] with
    exactly the four settings as keyword arguments, each holding the value
    given on the command line or [None]; no token or database id is needed,
    and [save], when given, is a boolean. *)
Theorem main_set_dispatch argv st :
  subcommand argv = Some "set" ->
  let cli d := cli_value setup_parser d (supplied argv) in
  parses setup_parser (supplied argv) = true ->
  exists kwargs,
    main run setup inspect clear argv st
    = setup kwargs (after st [EGetToken; EGetConfig; ESetup kwargs]) /\
    kwargs = {[ "bib_file_path" := cli "bib_file_path"; "save" := cli "save";
                "token" := cli "token"; "database_id" := cli "database_id" ]} /\
    (cli "save" = VNone \/ exists b, cli "save" = VBool b).
Proof.
  intros Hsub cli Hparses.
  destruct (parses_inr _ _ Hparses) as [ns Hns].
  exists (delete "mode" (<["mode" := VStr "set"]> ns)). split; [| split].
  - rewrite (main_after_parse argv st _
               (main_parse_ok argv st "set" setup_parser ns Hsub eq_refl Hns)
               (bare_subcommand _ _ Hsub)).
    cbv zeta. rewrite mode_lookup. select_mode.
    rewrite (bind_eq _ _ _ _ _ (log_after _ _)).
    unfold parser_built. by rewrite after_after.
  - apply map_eq. intros d.
    destruct (String.eqb_spec d "mode") as [-> | Hmode].
    { by rewrite lookup_delete_eq. }
    rewrite lookup_delete_ne, lookup_insert_ne by done.
    rewrite (parse_subcommand_value setup_parser d _ _ Hns).
    unfold cli, cli_value.
    destruct (String.eqb_spec d "bib_file_path") as [-> | H1].
    { rewrite lookup_insert_eq. by destruct (parsed_value _ _ _). }
    rewrite lookup_insert_ne by done.
    destruct (String.eqb_spec d "save") as [-> | H2].
    { rewrite lookup_insert_eq. by destruct (parsed_value _ _ _). }
    rewrite lookup_insert_ne by done.
    destruct (String.eqb_spec d "token") as [-> | H3].
    { rewrite lookup_insert_eq. by destruct (parsed_value _ _ _). }
    rewrite lookup_insert_ne by done.
    destruct (String.eqb_spec d "database_id") as [-> | H4].
    { rewrite lookup_singleton_eq. by destruct (parsed_value _ _ _). }
    rewrite lookup_singleton_ne by done.
    destruct (parsed_value setup_parser d (supplied argv)) as [v |] eqn:Hv.
    { apply parsed_value_dest in Hv. simpl in Hv. intuition congruence. }
    rewrite defaults_lookup. simpl.
    apply String.eqb_neq in H1, H2, H3, H4. by rewrite H1, H2, H3, H4.
  - unfold cli, cli_value.
    destruct (parsed_value setup_parser "save" (supplied argv)) as [v |] eqn:Hv;
      [| by left].
    right. by eapply setup_parser_save.
Qed.

(** X9: [inspect-config] and [clear-config] take no option: without any,
    [main] calls [inspect] (or [clear]) right after the parser is built,
    without resolving token or database id; with options none of which is a
    help flag, it stops with a usage error. *)
Theorem main_inspect_clear argv st :
  (subcommand argv = Some "inspect-config" ->
   (supplied argv = [] ->
    main run setup inspect clear argv st
    = inspect (after st [EGetToken; EGetConfig; EInspect]))
   /\ (supplied argv <> [] ->
       asks_help (supplied argv) = false ->
       exists msg,
         main run setup inspect clear argv st = (parser_built st, inl (UsageError msg))))
  /\
  (subcommand argv = Some "clear-config" ->
   (supplied argv = [] ->
    main run setup inspect clear argv st
    = clear (after st [EGetToken; EGetConfig; EClear]))
   /\ (supplied argv <> [] ->
       asks_help (supplied argv) = false ->
       exists msg,
         main run setup inspect clear argv st = (parser_built st, inl (UsageError msg)))).
Proof.
  assert (Hrej : forall name sp,
             (sp = inspect_parser \/ sp = clear_parser) ->
             subcommand argv = Some name ->
             lookup_subparser (built_parser st) name = Some sp ->
             supplied argv <> [] ->
             asks_help (supplied argv) = false ->
             exists msg,
               main run setup inspect clear argv st
               = (parser_built st, inl (UsageError msg))).
  { intros name sp Hsp Hsub Hlook Hargs Hhelp.
    assert (Husage : usage_formats (columns (world st)) sp = true).
    { destruct Hsp as [-> | ->]; [apply inspect_usage_formats | apply clear_usage_formats]. }
    destruct (parse_subcommand sp (supplied argv)) as [e | ns] eqn:Hp.
    - assert (Hreport : exists msg, report (columns (world st)) sp e = UsageError msg).
      { destruct (parse_subcommand_error _ _ _ Hhelp Hp) as [-> | [msg ->]]; simpl;
          [eauto | rewrite Husage; eauto]. }
      destruct Hreport as [msg Hmsg]. exists msg.
      eapply main_parse_error; [apply get_parser_eq |].
      unfold parse_args. rewrite Hsub. fold (built_parser st). by rewrite Hlook, Hp, Hmsg.
    - apply parse_subcommand_recognised in Hp.
      destruct (supplied argv) as [| arg rest]; [done |].
      by destruct Hsp as [-> | ->]. }
  split; intros Hsub; split.
  - intros Hargs.
    rewrite (main_after_parse argv st (<["mode" := VStr "inspect-config"]> ∅)).
    + cbv zeta. rewrite mode_lookup. select_mode.
      rewrite (bind_eq _ _ _ _ _ (log_after _ _)).
      unfold parser_built. by rewrite after_after.
    + apply (main_parse_ok argv st "inspect-config" inspect_parser ∅ Hsub eq_refl).
      by rewrite Hargs.
    + by eapply bare_subcommand.
  - by apply (Hrej "inspect-config" inspect_parser); [left | |].
  - intros Hargs.
    rewrite (main_after_parse argv st (<["mode" := VStr "clear-config"]> ∅)).
    + cbv zeta. rewrite mode_lookup. select_mode.
      rewrite (bind_eq _ _ _ _ _ (log_after _ _)).
      unfold parser_built. by rewrite after_after.
    + apply (main_parse_ok argv st "clear-config" clear_parser ∅ Hsub eq_refl).
      by rewrite Hargs.
    + by eapply bare_subcommand.
  - by apply (Hrej "clear-config" clear_parser); [right | |].
Qed.

(** X10: without a stored token, [--token] is required by both [run] and
    [download]: a command line that leaves it out (and does not ask for
    help) is turned down by the parser right after it is built, before
    [sanitize_arguments_and_run] or [sanitize_arguments_and_download] is
    called.  The outcome is a usage error on a terminal of at least 103
    columns; on one of fewer than 100 columns printing the usage line fails
    ([-t] is then shown with its empty metavar and no brackets) and the
    outcome is the [AssertionError] of the formatter. *)
Theorem main_token_required argv st :
  subcommand argv = Some "run" \/ subcommand argv = Some "download" ->
  keyring (world st) = None ->
  supplies ["-t"; "--token"] (supplied argv) = false ->
  asks_help (supplied argv) = false ->
  exists e,
    main run setup inspect clear argv st = (after st [EGetToken; EGetConfig], inl e) /\
    (103 <= columns (world st) -> exists msg, e = UsageError msg) /\
    (columns (world st) < 100 -> e = AssertionError).
Proof.
  intros Hsub Hkey Hsup Hhelp.
  assert (Htok : stored_token (world st) = VNone) by (by apply stored_token_None).
  assert (Hwide : forall n, n <= 103 -> 103 <= columns (world st) ->
                            (n <=? columns (world st))%nat = true).
  { intros n Hn Hc. apply Nat.leb_le. lia. }
  assert (Hnarrow : forall n, 100 <= n -> columns (world st) < 100 ->
                              (n <=? columns (world st))%nat = false).
  { intros n Hn Hc. apply Nat.leb_gt. lia. }
  destruct Hsub as [Hsub | Hsub].
  - destruct (run_parser_requires_token (config_file (world st)) _ Hhelp Hsup)
      as [msg Hmsg].
    rewrite <- Htok in Hmsg.
    rewrite (main_subparser_error run setup inspect clear argv st "run"
               (run_parser (stored_token (world st)) (config_file (world st))) msg
               Hsub eq_refl Hmsg).
    eexists. split; [reflexivity |].
    rewrite run_usage_formats, Htok. change (is_None VNone) with true. cbv iota.
    split; intros Hc.
    + destruct (is_None (dict_get _ _ _)); rewrite Hwide by lia; eauto.
    + by destruct (is_None (dict_get _ _ _)); rewrite Hnarrow by lia.
  - destruct (download_parser_requires_token _ Hhelp Hsup) as [msg Hmsg].
    rewrite <- Htok in Hmsg.
    rewrite (main_subparser_error run setup inspect clear argv st "download"
               (download_parser (stored_token (world st))) msg Hsub eq_refl Hmsg).
    eexists. split; [reflexivity |].
    rewrite download_usage_formats, Htok. change (is_None VNone) with true. cbv iota.
    split; intros Hc.
    + rewrite Hwide by lia. eauto.
    + by rewrite Hnarrow by lia.
Qed.

(** X11: with no argument at all, [main] builds the parser, prints the help
    and exits with status 1; no command function is called. *)
Theorem main_bare argv st :
  bare argv = true ->
  main run setup inspect clear argv st
  = (after st [EGetToken; EGetConfig; EPrintHelp], inl (SystemExit 1)).
Proof.
  intros Hbare. unfold main.
  rewrite (bind_eq _ _ _ _ _ (get_parser_eq st)).
  unfold bare in Hbare.
  destruct (subcommand argv) eqn:Hsub; [done |].
  destruct (supplied argv) eqn:Hargs; [| done].
  unfold ask_world, parse_args. rewrite Hsub, Hargs.
  unfold lift_result, mbind, M_bind, bare. rewrite Hsub, Hargs.
  unfold print_help, log, raise, parser_built, after. simpl.
  by rewrite <- (assoc_L (++)).
Qed.

(** X12: a [download] command line without [--file-path] (and without help
    flag) is a usage error on a terminal of at least 101 columns, whatever
    the configuration holds (a stored bib file path included); [main] stops
    right after the parser was built. *)
Theorem download_requires_file_path argv st :
  subcommand argv = Some "download" ->
  supplies ["-f"; "--file-path"] (supplied argv) = false ->
  asks_help (supplied argv) = false ->
  101 <= columns (world st) ->
  exists msg,
    main run setup inspect clear argv st
    = (after st [EGetToken; EGetConfig], inl (UsageError msg)).
Proof.
  intros Hsub Hsup Hhelp Hwide.
  destruct (download_parser_rejects (stored_token (world st)) _ Hhelp Hsup) as [msg Hmsg].
  exists msg.
  rewrite (main_subparser_error run setup inspect clear argv st "download"
             (download_parser (stored_token (world st))) msg Hsub eq_refl Hmsg).
  rewrite download_usage_formats.
  assert (H100 : (100 <=? columns (world st))%nat = true) by (apply Nat.leb_le; lia).
  assert (H101 : (101 <=? columns (world st))%nat = true) by (apply Nat.leb_le; lia).
  by destruct (is_None (stored_token (world st))); rewrite ?H100, ?H101.
Qed.

End Dispatch.


Lemma main_run_dispatch_witness :
  let argv := {| subcommand := Some "run";
                 supplied := [("-db", "db2"); ("-s", "@book{doe2021, year = 2021}")] |} in
  main stub_run stub_setup stub stub argv save_as_text
  = sanitize_arguments_and_run stub_run
      VNone (VStr "db2") VNone (VStr "@book{doe2021, year = 2021}") VNone
      (parser_built save_as_text)
  /\ exists args,
       main stub_run stub_setup stub stub argv save_as_text
       = stub_run args
           (after save_as_text [EGetToken; EGetConfig; EGetToken; EGetConfig; ERun args]) /\
       run_token args = VStr "secret_stored" /\
       run_save_to_bib_file args = VBool true.
Proof.
  intros argv.
  destruct (main_run_dispatch stub_run stub_setup stub stub argv save_as_text)
    as (Hmain & _ & Hrun); [reflexivity | reflexivity |].
  split; [exact Hmain |].
  apply Hrun. reflexivity.
Defined.

Lemma main_download_dispatch_witness :
  exists file_path,
    VStr "out.bib" = VStr file_path /\
    main stub_run stub_setup stub stub
      {| subcommand := Some "download";
         supplied := [("--file-path", "out.bib"); ("-db", "db2")] |} configured
    = sanitize_arguments_and_download file_path VNone (VStr "db2") (parser_built configured)
    /\ is_None (resolved_token VNone (parser_built configured)) = false.
Proof.
  apply (main_download_dispatch stub_run stub_setup stub stub
           {| subcommand := Some "download";
              supplied := [("--file-path", "out.bib"); ("-db", "db2")] |} configured);
    reflexivity.
Defined.

Lemma main_set_dispatch_witness :
  exists kwargs,
    main stub_run stub_setup stub stub
      {| subcommand := Some "set"; supplied := [("--save", "No"); ("-t", "secret_new")] |}
      fresh_install
    = stub_setup kwargs (after fresh_install [EGetToken; EGetConfig; ESetup kwargs]) /\
    kwargs = {[ "bib_file_path" := VNone; "save" := VBool false;
                "token" := VStr "secret_new"; "database_id" := VNone ]} /\
    (VBool false = VNone \/ exists b, VBool false = VBool b).
Proof.
  apply (main_set_dispatch stub_run stub_setup stub stub
           {| subcommand := Some "set";
              supplied := [("--save", "No"); ("-t", "secret_new")] |} fresh_install);
    reflexivity.
Defined.

Lemma main_inspect_clear_witness :
  main stub_run stub_setup stub stub
    {| subcommand := Some "inspect-config"; supplied := [] |} fresh_install
  = stub (after fresh_install [EGetToken; EGetConfig; EInspect])
  /\ exists msg,
       main stub_run stub_setup stub stub
         {| subcommand := Some "clear-config"; supplied := [("-t", "secret_new")] |}
         fresh_narrow
       = (parser_built fresh_narrow, inl (UsageError msg)).
Proof.
  split.
  - destruct (main_inspect_clear stub_run stub_setup stub stub
                {| subcommand := Some "inspect-config"; supplied := [] |} fresh_install)
      as [Hinspect _].
    destruct (Hinspect eq_refl) as [Hnone _]. apply Hnone. reflexivity.
  - destruct (main_inspect_clear stub_run stub_setup stub stub
                {| subcommand := Some "clear-config"; supplied := [("-t", "secret_new")] |}
                fresh_narrow) as [_ Hclear].
    destruct (Hclear eq_refl) as [_ Hsome]. apply Hsome; [discriminate | reflexivity].
Defined.

Lemma main_token_required_witness :
  (exists msg,
     main stub_run stub_setup stub stub
       {| subcommand := Some "download"; supplied := [("-f", "out.bib")] |} fresh_install
     = (after fresh_install [EGetToken; EGetConfig], inl (UsageError msg)))
  /\
  main stub_run stub_setup stub stub
    {| subcommand := Some "run"; supplied := [("-f", "refs.bib")] |} fresh_narrow
  = (after fresh_narrow [EGetToken; EGetConfig], inl AssertionError).
Proof.
  split.
  - destruct (main_token_required stub_run stub_setup stub stub
                {| subcommand := Some "download"; supplied := [("-f", "out.bib")] |}
                fresh_install) as (e & Hmain & Hwide & _);
      [right; reflexivity | reflexivity | reflexivity | reflexivity |].
    destruct Hwide as [msg ->]; [simpl; lia |]. by exists msg.
  - destruct (main_token_required stub_run stub_setup stub stub
                {| subcommand := Some "run"; supplied := [("-f", "refs.bib")] |}
                fresh_narrow) as (e & Hmain & _ & Hnarrow);
      [left; reflexivity | reflexivity | reflexivity | reflexivity |].
    rewrite Hnarrow in Hmain; [exact Hmain | simpl; lia].
Defined.

Lemma main_bare_witness :
  main stub_run stub_setup stub stub {| subcommand := None; supplied := [] |} configured
  = (after configured [EGetToken; EGetConfig; EPrintHelp], inl (SystemExit 1)).
Proof.
  apply (main_bare stub_run stub_setup stub stub
           {| subcommand := None; supplied := [] |} configured).
  reflexivity.
Defined.

Lemma download_requires_file_path_witness :
  exists msg,
    main stub_run stub_setup stub stub
      {| subcommand := Some "download"; supplied := [("-db", "db2")] |} with_bib_file
    = (after with_bib_file [EGetToken; EGetConfig], inl (UsageError msg)).
Proof.
  apply (download_requires_file_path stub_run stub_setup stub stub
           {| subcommand := Some "download"; supplied := [("-db", "db2")] |} with_bib_file);
    [reflexivity | reflexivity | reflexivity | simpl; lia].
Defined.

(** X13: a command line that parses and is not empty names one of the five
    subcommands, and the namespace holds that name under [mode]: the last
    branch of [main], which raises [NotImplementedError], is never taken. *)
Theorem parsed_mode st st1 parser cols argv arguments :
  get_parser st = (st1, inr parser) ->
  parse_args cols parser argv = inr arguments ->
  bare argv = false ->
  exists name,
    In name subcommands /\
    subcommand argv = Some name /\
    dict_get arguments "mode" VNone = VStr name.
Proof.
  intros Hp Hargs Hbare. rewrite get_parser_eq in Hp. injection Hp as _ <-.
  unfold parse_args in Hargs. unfold bare in Hbare.
  destruct (subcommand argv) as [name |].
  2: { destruct (supplied argv) as [| [flag raw] rest]; [done |].
       by destruct (mem flag help_strings). }
  exists name.
  assert (Hin : In name subcommands).
  { unfold lookup_subparser in Hargs. simpl in Hargs.
    repeat match type of Hargs with
           | context [String.eqb name ?s] =>
               let E := fresh "E" in
               destruct (String.eqb name s) eqn:E;
               [apply String.eqb_eq in E as ->; simpl; tauto |]
           end.
    simpl in Hargs. discriminate. }
  split; [done |]. split; [done |].
  destruct (lookup_subparser _ name) as [sp |]; [| discriminate].
  destruct (parse_subcommand sp (supplied argv)) as [e | ns]; [discriminate |].
  injection Hargs as <-. apply mode_lookup.
Qed.

Lemma parsed_mode_witness :
  exists name,
    In name subcommands /\
    Some "set" = Some name /\
    dict_get
      (match parse_args 80 (built_parser configured)
               {| subcommand := Some "set"; supplied := [("-db", "db2")] |} with
       | inr arguments => arguments
       | inl _ => ∅
       end) "mode" VNone = VStr name.
Proof.
  apply (parsed_mode configured (parser_built configured) (built_parser configured) 80
           {| subcommand := Some "set"; supplied := [("-db", "db2")] |});
    reflexivity.
Defined.




